(** * Privacy Screen: spotlight geometry, parameter store and overlay lifecycle

    A shallow embedding of [src/main.ts] (the full-featured variant of the
    plugin: width/height, horizontal offset, shapes, tracking modes,
    pause/resume and the persisted [wasActive] flag).

    Conventions of the embedding.
    - A JavaScript [number] is an exact rational ([Q]): the arithmetic of
      the plugin ([+], [-], [*], [/], [Math.min], [Math.max], [Math.floor])
      is taken without rounding and without NaN or infinities.  Numeric
      results are compared with [==] where the two sides are different
      fractions of the same value, and with [=] where they are the same term.
      What is stated over [Q] relates computations of the code to each
      other.  Where a statement is about the numbers the code emits, the
      mask arithmetic is taken a second time, over binary64
      ([Module Binary64]).
    - The plugin instance, the part of the document it touches and the
      persisted [data.json] are one record, [World], threaded through every
      method.  DOM elements live in a store and are referred to by
      reference, so that [this.overlayEl] and the child of [document.body]
      are the same object.
    - An [await]ed call is taken to complete at once: [saveSettings] is
      [saveData] followed by [applySettings]. *)

From Stdlib Require Import QArith Qround Qminmax Qabs Lqa.
From Stdlib Require Import Floats.
From stdpp Require Import gmap strings list fin_maps.

Local Open Scope Q_scope.

(** ** JavaScript numbers *)

Module Math.

Definition floor (x : Q) : Q := inject_Z (Qfloor x).

Definition min (a b : Q) : Q := Qmin a b.

Definition max (a b : Q) : Q := Qmax a b.

End Math.

(** ** Settings *)

Inductive SpotlightShape := circle | square.
Inductive TrackingMode := cursor | mouse.

(** A JSON value as [loadData] returns it and [saveData] stores it. *)
Inductive JSValue :=
| JNumber (q : Q)
| JString (s : string)
| JBoolean (b : bool)
| JNull.

(** The ten declared fields of the interface, and [otherKeys]: the own
    properties of the settings object that the interface does not declare.
    The code never reads them, but [Object.assign] copies them and
    [saveData] writes them back. *)
Record PrivacyScreenSettings := {
  spotlightWidth : Q;
  spotlightHeight : Q;
  horizontalOffset : Q;
  blurIntensity : Q;
  featherEdge : Q;
  spotlightShape : SpotlightShape;
  squareRoundness : Q;
  previewCursorBlink : bool;
  wasActive : bool;
  trackingMode : TrackingMode;
  otherKeys : gmap string JSValue
}.

Definition DEFAULT_SETTINGS : PrivacyScreenSettings := {|
  spotlightWidth := 200;
  spotlightHeight := 100;
  horizontalOffset := 0;
  blurIntensity := 8;
  featherEdge := 50;
  spotlightShape := circle;
  squareRoundness := 20;
  previewCursorBlink := true;
  wasActive := false;
  trackingMode := cursor;
  otherKeys := ∅
|}.

(** *** The settings object at run time *)

(** The names the interface declares. *)
Definition declared_keys : list string :=
  [ "spotlightWidth"; "spotlightHeight"; "horizontalOffset"; "blurIntensity";
    "featherEdge"; "spotlightShape"; "squareRoundness"; "previewCursorBlink";
    "wasActive"; "trackingMode" ].

Definition shape_value (s : SpotlightShape) : JSValue :=
  match s with circle => JString "circle" | square => JString "square" end.

Definition mode_value (m : TrackingMode) : JSValue :=
  match m with cursor => JString "cursor" | mouse => JString "mouse" end.

Definition declared_fields (s : PrivacyScreenSettings) : gmap string JSValue :=
  list_to_map
    [ ("spotlightWidth", JNumber (spotlightWidth s));
      ("spotlightHeight", JNumber (spotlightHeight s));
      ("horizontalOffset", JNumber (horizontalOffset s));
      ("blurIntensity", JNumber (blurIntensity s));
      ("featherEdge", JNumber (featherEdge s));
      ("spotlightShape", shape_value (spotlightShape s));
      ("squareRoundness", JNumber (squareRoundness s));
      ("previewCursorBlink", JBoolean (previewCursorBlink s));
      ("wasActive", JBoolean (wasActive s));
      ("trackingMode", mode_value (trackingMode s)) ].

(** The object a settings value stands for: its declared fields and the
    undeclared properties it carries. *)
Definition to_object (s : PrivacyScreenSettings) : gmap string JSValue :=
  declared_fields s ∪ otherKeys s.

Definition DEFAULT_SETTINGS_object : gmap string JSValue :=
  to_object DEFAULT_SETTINGS.

Definition get_number (o : gmap string JSValue) (k : string) : option Q :=
  match o !! k with Some (JNumber q) => Some q | _ => None end.

Definition get_boolean (o : gmap string JSValue) (k : string) : option bool :=
  match o !! k with Some (JBoolean b) => Some b | _ => None end.

Definition get_shape (o : gmap string JSValue) (k : string) : option SpotlightShape :=
  match o !! k with
  | Some (JString s) =>
      if String.eqb s "circle" then Some circle
      else if String.eqb s "square" then Some square
      else None
  | _ => None
  end.

Definition get_mode (o : gmap string JSValue) (k : string) : option TrackingMode :=
  match o !! k with
  | Some (JString s) =>
      if String.eqb s "cursor" then Some cursor
      else if String.eqb s "mouse" then Some mouse
      else None
  | _ => None
  end.

(** Reading an object at the type the interface declares.  [None] when a
    declared field is missing or holds a value of another type: the
    TypeScript annotation on [settings] assumes this does not happen. *)
Definition as_settings (o : gmap string JSValue) : option PrivacyScreenSettings :=
  w ← get_number o "spotlightWidth";
  h ← get_number o "spotlightHeight";
  off ← get_number o "horizontalOffset";
  blur ← get_number o "blurIntensity";
  feather ← get_number o "featherEdge";
  shape ← get_shape o "spotlightShape";
  round ← get_number o "squareRoundness";
  blink ← get_boolean o "previewCursorBlink";
  was ← get_boolean o "wasActive";
  mode ← get_mode o "trackingMode";
  Some {|
    spotlightWidth := w;
    spotlightHeight := h;
    horizontalOffset := off;
    blurIntensity := blur;
    featherEdge := feather;
    spotlightShape := shape;
    squareRoundness := round;
    previewCursorBlink := blink;
    wasActive := was;
    trackingMode := mode;
    otherKeys := filter (λ kv, DEFAULT_SETTINGS_object !! kv.1 = None) o
  |}.

(** [Object.assign(target, ...sources)]: every own property of each source
    is written to the target, later sources winning; a [null] or
    [undefined] source is skipped.  The write is an assignment
    ([target[key] = value]), not a definition: for the key [__proto__] it
    reaches the setter inherited from [Object.prototype], which may change
    the prototype of the target and never gives it an own property, so an
    own [__proto__] of a source (which [JSON.parse] can produce) is not
    copied.  The targets here are plain objects, for which this is the
    only such key.  The prototype is not part of the model: every field
    the plugin reads is an own property of the target, copied from the
    defaults. *)
Definition Object_assign (target : gmap string JSValue)
    (sources : list (option (gmap string JSValue))) : gmap string JSValue :=
  foldl (λ acc src,
           match src with
           | Some o => delete "__proto__" o ∪ acc
           | None => acc
           end)
        target sources.

(** [loadSettings]: [Object.assign({}, DEFAULT_SETTINGS, await this.loadData())].
    [data] is what [loadData] resolves to, [None] when nothing was saved. *)
Definition loadSettings (data : option (gmap string JSValue)) : gmap string JSValue :=
  Object_assign ∅ [Some DEFAULT_SETTINGS_object; data].

(** *** Field updates *)

Definition set_spotlightWidth (v : Q) (s : PrivacyScreenSettings) :=
  Build_PrivacyScreenSettings v (spotlightHeight s) (horizontalOffset s)
    (blurIntensity s) (featherEdge s) (spotlightShape s) (squareRoundness s)
    (previewCursorBlink s) (wasActive s) (trackingMode s) (otherKeys s).

Definition set_spotlightHeight (v : Q) (s : PrivacyScreenSettings) :=
  Build_PrivacyScreenSettings (spotlightWidth s) v (horizontalOffset s)
    (blurIntensity s) (featherEdge s) (spotlightShape s) (squareRoundness s)
    (previewCursorBlink s) (wasActive s) (trackingMode s) (otherKeys s).

Definition set_horizontalOffset (v : Q) (s : PrivacyScreenSettings) :=
  Build_PrivacyScreenSettings (spotlightWidth s) (spotlightHeight s) v
    (blurIntensity s) (featherEdge s) (spotlightShape s) (squareRoundness s)
    (previewCursorBlink s) (wasActive s) (trackingMode s) (otherKeys s).

Definition set_blurIntensity (v : Q) (s : PrivacyScreenSettings) :=
  Build_PrivacyScreenSettings (spotlightWidth s) (spotlightHeight s)
    (horizontalOffset s) v (featherEdge s) (spotlightShape s) (squareRoundness s)
    (previewCursorBlink s) (wasActive s) (trackingMode s) (otherKeys s).

Definition set_featherEdge (v : Q) (s : PrivacyScreenSettings) :=
  Build_PrivacyScreenSettings (spotlightWidth s) (spotlightHeight s)
    (horizontalOffset s) (blurIntensity s) v (spotlightShape s) (squareRoundness s)
    (previewCursorBlink s) (wasActive s) (trackingMode s) (otherKeys s).

Definition set_spotlightShape (v : SpotlightShape) (s : PrivacyScreenSettings) :=
  Build_PrivacyScreenSettings (spotlightWidth s) (spotlightHeight s)
    (horizontalOffset s) (blurIntensity s) (featherEdge s) v (squareRoundness s)
    (previewCursorBlink s) (wasActive s) (trackingMode s) (otherKeys s).

Definition set_squareRoundness (v : Q) (s : PrivacyScreenSettings) :=
  Build_PrivacyScreenSettings (spotlightWidth s) (spotlightHeight s)
    (horizontalOffset s) (blurIntensity s) (featherEdge s) (spotlightShape s) v
    (previewCursorBlink s) (wasActive s) (trackingMode s) (otherKeys s).

Definition set_previewCursorBlink (v : bool) (s : PrivacyScreenSettings) :=
  Build_PrivacyScreenSettings (spotlightWidth s) (spotlightHeight s)
    (horizontalOffset s) (blurIntensity s) (featherEdge s) (spotlightShape s)
    (squareRoundness s) v (wasActive s) (trackingMode s) (otherKeys s).

Definition set_wasActive (v : bool) (s : PrivacyScreenSettings) :=
  Build_PrivacyScreenSettings (spotlightWidth s) (spotlightHeight s)
    (horizontalOffset s) (blurIntensity s) (featherEdge s) (spotlightShape s)
    (squareRoundness s) (previewCursorBlink s) v (trackingMode s) (otherKeys s).

Definition set_trackingMode (v : TrackingMode) (s : PrivacyScreenSettings) :=
  Build_PrivacyScreenSettings (spotlightWidth s) (spotlightHeight s)
    (horizontalOffset s) (blurIntensity s) (featherEdge s) (spotlightShape s)
    (squareRoundness s) (previewCursorBlink s) (wasActive s) v (otherKeys s).

(** ** The mask descriptor *)

(** One [radial-gradient(ellipse <rx>px <ry>px at <x>px <y>px, ...)] layer. *)
Record Ellipse := {
  ellipse_rx : Q;
  ellipse_ry : Q;
  ellipse_x : Q;
  ellipse_y : Q
}.

(** One [<rect x= y= width= height= rx= .../>] of the SVG mask. *)
Record SvgRect := {
  rect_x : Q;
  rect_y : Q;
  rect_width : Q;
  rect_height : Q;
  rect_rx : Q
}.

(** The value assigned to [style.maskImage].  The source builds a string
    from a fixed template; the descriptor keeps the numbers that are
    interpolated into it, slot by slot, and leaves out the fixed text.
    - [RadialGradients inner outer]: the circle branch,
      [radial-gradient(ellipse rx ry at x y, transparent 0%, transparent
      100%, black 100%), radial-gradient(ellipse outerRx outerRy at x y,
      transparent 0%, black 100%)]; [inner] is the first layer, [outer]
      the second.
    - [SvgMask outer inner]: the square branch, a data URL of an SVG whose
      mask holds a white full-size rect, then the rect [outer] filled with
      the radial gradient [#fade], then the rect [inner] filled black.
      Collapsing the white space of the markup and URI-encoding it do not
      change the numbers in it. *)
Inductive MaskImage :=
| RadialGradients (inner outer : Ellipse)
| SvgMask (outer inner : SvgRect).

Definition createSquareMask (cx cy width height roundness feather : Q) : MaskImage :=
  let left := cx - width / 2 in
  let top := cy - height / 2 in
  let outerLeft := left - feather in
  let outerTop := top - feather in
  let outerWidth := width + feather * 2 in
  let outerHeight := height + feather * 2 in
  let outerRoundness := roundness + feather in
  SvgMask
    {| rect_x := outerLeft; rect_y := outerTop; rect_width := outerWidth;
       rect_height := outerHeight; rect_rx := outerRoundness |}
    {| rect_x := left; rect_y := top; rect_width := width;
       rect_height := height; rect_rx := roundness |}.

(** The value [updateMask] computes, as a function of what it reads:
    the settings and [currentX], [currentY]; the numbers are those of
    exact arithmetic, see [Binary64.maskImage_of] for the rounded ones. *)
Definition maskImage_of (s : PrivacyScreenSettings) (currentX currentY : Q) : MaskImage :=
  let x := currentX + horizontalOffset s in
  let y := currentY in
  let rx := spotlightWidth s / 2 in
  let ry := spotlightHeight s / 2 in
  match spotlightShape s with
  | square =>
      let minDimension := Math.min rx ry in
      let roundness := (squareRoundness s / 100) * minDimension in
      createSquareMask x y (spotlightWidth s) (spotlightHeight s) roundness (featherEdge s)
  | circle =>
      let outerRx := rx + featherEdge s in
      let outerRy := ry + featherEdge s in
      RadialGradients
        {| ellipse_rx := rx; ellipse_ry := ry; ellipse_x := x; ellipse_y := y |}
        {| ellipse_rx := outerRx; ellipse_ry := outerRy; ellipse_x := x; ellipse_y := y |}
  end.


(** ** The document and the editor *)

(** The overlay [div], as far as the plugin writes to it: its class list,
    the [--blur-intensity] custom property (in px) and [style.maskImage]. *)
Record HTMLElement := {
  classList : list string;
  blur_intensity_px : option Q;
  style_maskImage : option MaskImage
}.

Definition setProperty_blur_intensity (v : Q) (e : HTMLElement) : HTMLElement :=
  {| classList := classList e; blur_intensity_px := Some v;
     style_maskImage := style_maskImage e |}.

Definition set_style_maskImage (m : MaskImage) (e : HTMLElement) : HTMLElement :=
  {| classList := classList e; blur_intensity_px := blur_intensity_px e;
     style_maskImage := Some m |}.

(** What [coordsAtPos] returns. *)
Record Rect := { left : Q; right : Q; top : Q; bottom : Q }.

Record EditorView := {
  selection_main_head : nat;
  coordsAtPos : nat → option Rect
}.

(** [view.editor.cm], which may be undefined. *)
Record MarkdownView := { editor_cm : option EditorView }.

(** The host application at the moment a handler runs:
    [app.workspace.getActiveViewOfType(MarkdownView)]. *)
Record App := { getActiveViewOfType : option MarkdownView }.

(** ** The plugin instance and its surroundings *)

Record World := {
  (* the plugin instance *)
  settings : PrivacyScreenSettings;
  overlayEl : option nat;
  isActive : bool;
  wasActiveBeforePause : bool;
  currentX : Q;
  currentY : Q;
  (* the document: the element store, the overlay children of
     [document.body] in order, and the next free reference *)
  nodes : gmap nat HTMLElement;
  body : list nat;
  nextNode : nat;
  (* the record last handed to [saveData] *)
  dataJson : option (gmap string JSValue)
}.

Definition with_settings (s : PrivacyScreenSettings) (w : World) : World :=
  Build_World s (overlayEl w) (isActive w) (wasActiveBeforePause w)
    (currentX w) (currentY w) (nodes w) (body w) (nextNode w) (dataJson w).

Definition with_isActive (b : bool) (w : World) : World :=
  Build_World (settings w) (overlayEl w) b (wasActiveBeforePause w)
    (currentX w) (currentY w) (nodes w) (body w) (nextNode w) (dataJson w).

Definition with_wasActiveBeforePause (b : bool) (w : World) : World :=
  Build_World (settings w) (overlayEl w) (isActive w) b
    (currentX w) (currentY w) (nodes w) (body w) (nextNode w) (dataJson w).

Definition with_current (x y : Q) (w : World) : World :=
  Build_World (settings w) (overlayEl w) (isActive w) (wasActiveBeforePause w)
    x y (nodes w) (body w) (nextNode w) (dataJson w).

Definition with_nodes (n : gmap nat HTMLElement) (w : World) : World :=
  Build_World (settings w) (overlayEl w) (isActive w) (wasActiveBeforePause w)
    (currentX w) (currentY w) n (body w) (nextNode w) (dataJson w).

Definition with_dataJson (d : option (gmap string JSValue)) (w : World) : World :=
  Build_World (settings w) (overlayEl w) (isActive w) (wasActiveBeforePause w)
    (currentX w) (currentY w) (nodes w) (body w) (nextNode w) d.

(** ** Methods of [PrivacyScreenPlugin] *)

Definition updateMask (w : World) : World :=
  match overlayEl w with
  | None => w
  | Some el =>
      let maskImage := maskImage_of (settings w) (currentX w) (currentY w) in
      with_nodes (alter (set_style_maskImage maskImage) el (nodes w)) w
  end.

Definition applySettings (w : World) : World :=
  match overlayEl w with
  | None => w
  | Some el =>
      updateMask
        (with_nodes
           (alter (setProperty_blur_intensity (blurIntensity (settings w))) el (nodes w))
           w)
  end.

Definition updateSpotlightPosition (x y : Q) (w : World) : World :=
  updateMask (with_current x y w).

Definition trackCursor (app : App) (w : World) : World :=
  if negb (isActive w) then w else
  match getActiveViewOfType app with
  | None => w
  | Some view =>
      match editor_cm view with
      | None => w
      | Some editorView =>
          let cursorPos := selection_main_head editorView in
          match coordsAtPos editorView cursorPos with
          | None => w
          | Some coords =>
              let centerY := (top coords + bottom coords) / 2 in
              updateSpotlightPosition (left coords) centerY w
          end
      end
  end.

(** [document.createElement('div')], [addClass], [appendChild], then
    [applySettings] and [trackCursor]. *)
Definition createOverlay (app : App) (w : World) : World :=
  let el := nextNode w in
  let div := {| classList := ["privacy-screen-overlay"];
                blur_intensity_px := None; style_maskImage := None |} in
  let w1 :=
    Build_World (settings w) (Some el) (isActive w) (wasActiveBeforePause w)
      (currentX w) (currentY w) (<[el := div]> (nodes w)) (body w ++ [el])
      (S el) (dataJson w) in
  trackCursor app (applySettings w1).

(** [this.overlayEl.remove()] takes the element out of its parent. *)
Definition removeOverlay (w : World) : World :=
  match overlayEl w with
  | Some el =>
      Build_World (settings w) None (isActive w) (wasActiveBeforePause w)
        (currentX w) (currentY w) (nodes w)
        (filter (λ n, n ≠ el) (body w)) (nextNode w) (dataJson w)
  | None => w
  end.

Definition saveData (s : PrivacyScreenSettings) (w : World) : World :=
  with_dataJson (Some (to_object s)) w.

Definition saveSettings (w : World) : World :=
  applySettings (saveData (settings w) w).

Definition toggle (app : App) (w : World) : World :=
  let w1 := if isActive w then removeOverlay w else createOverlay app w in
  let w2 := with_isActive (negb (isActive w1)) w1 in
  let w3 := with_settings (set_wasActive (isActive w2) (settings w2)) w2 in
  saveSettings w3.

(** The keys [adjustSetting] accepts. *)
Inductive AdjustKey := key_spotlightWidth | key_spotlightHeight | key_blurIntensity.

Definition get_key (key : AdjustKey) (s : PrivacyScreenSettings) : Q :=
  match key with
  | key_spotlightWidth => spotlightWidth s
  | key_spotlightHeight => spotlightHeight s
  | key_blurIntensity => blurIntensity s
  end.

Definition set_key (key : AdjustKey) (v : Q) (s : PrivacyScreenSettings) :=
  match key with
  | key_spotlightWidth => set_spotlightWidth v s
  | key_spotlightHeight => set_spotlightHeight v s
  | key_blurIntensity => set_blurIntensity v s
  end.

Definition adjustSetting (key : AdjustKey) (delta min max : Q) (w : World) : World :=
  let newValue := Math.max min (Math.min max (get_key key (settings w) + delta)) in
  saveSettings (with_settings (set_key key newValue (settings w)) w).

Definition adjustOffset (delta : Q) (w : World) : World :=
  let maxOffset := Math.floor (spotlightWidth (settings w) / 2) - 5 in
  let newValue :=
    Math.max (- maxOffset) (Math.min maxOffset (horizontalOffset (settings w) + delta)) in
  saveSettings (with_settings (set_horizontalOffset newValue (settings w)) w).

(** [this.settings = Object.assign({}, DEFAULT_SETTINGS)]: a fresh object
    with the properties of the defaults and no other. *)
Definition resetSettings (w : World) : World :=
  saveSettings (with_settings DEFAULT_SETTINGS w).

Definition toggleTrackingMode (w : World) : World :=
  let m := match trackingMode (settings w) with cursor => mouse | mouse => cursor end in
  saveSettings (with_settings (set_trackingMode m (settings w)) w).

Definition pauseOverlay (w : World) : World :=
  let w1 := with_wasActiveBeforePause (isActive w) w in
  if isActive w1 then with_isActive false (removeOverlay w1) else w1.

Definition resumeOverlay (app : App) (w : World) : World :=
  if wasActiveBeforePause w && negb (isActive w)
  then with_isActive true (createOverlay app w)
  else w.

(** The [mousemove] listener registered in [onload]. *)
Definition on_mousemove (clientX clientY : Q) (w : World) : World :=
  match isActive w, trackingMode (settings w) with
  | true, mouse => updateSpotlightPosition clientX clientY w
  | _, _ => w
  end.

(** The instance as its field initialisers leave it, in a document that
    has no overlay, with [data] on disk. *)
Definition new_plugin (s : PrivacyScreenSettings)
    (data : option (gmap string JSValue)) : World :=
  {| settings := s; overlayEl := None; isActive := false;
     wasActiveBeforePause := false; currentX := 0; currentY := 0;
     nodes := ∅; body := []; nextNode := 0%nat; dataJson := data |}.

(** [onload], up to the registration of commands and listeners (these are
    the events below).  [None] when the loaded object is not a settings
    value, see [as_settings]. *)
Definition onload (app : App) (data : option (gmap string JSValue)) : option World :=
  s ← as_settings (loadSettings data);
  let w := new_plugin s data in
  Some (if wasActive (settings w)
        then with_isActive true (createOverlay app w)
        else w).

Definition onunload (w : World) : World := removeOverlay w.

(** ** The settings tab *)

Module PrivacyScreenSettingTab.

(** [display] pauses the overlay and rebuilds the widgets; only the
    first acts on the plugin. *)
Definition display (w : World) : World := pauseOverlay w.

Definition hide (app : App) (w : World) : World := resumeOverlay app w.

Definition spotlightWidth_onChange (value : Q) (w : World) : World :=
  let s1 := set_spotlightWidth value (settings w) in
  let maxOffset := Math.floor (value / 2) - 5 in
  let s2 :=
    if Qlt_le_dec maxOffset (horizontalOffset s1)
    then set_horizontalOffset maxOffset s1
    else if Qlt_le_dec (horizontalOffset s1) (- maxOffset)
    then set_horizontalOffset (- maxOffset) s1
    else s1 in
  display (saveSettings (with_settings s2 w)).

Definition horizontalOffset_onChange (value : Q) (w : World) : World :=
  saveSettings (with_settings (set_horizontalOffset value (settings w)) w).

Definition spotlightHeight_onChange (value : Q) (w : World) : World :=
  saveSettings (with_settings (set_spotlightHeight value (settings w)) w).

Definition blurIntensity_onChange (value : Q) (w : World) : World :=
  saveSettings (with_settings (set_blurIntensity value (settings w)) w).

Definition featherEdge_onChange (value : Q) (w : World) : World :=
  saveSettings (with_settings (set_featherEdge value (settings w)) w).

Definition spotlightShape_onChange (value : SpotlightShape) (w : World) : World :=
  display (saveSettings (with_settings (set_spotlightShape value (settings w)) w)).

Definition squareRoundness_onChange (value : Q) (w : World) : World :=
  saveSettings (with_settings (set_squareRoundness value (settings w)) w).

Definition trackingMode_onChange (value : TrackingMode) (w : World) : World :=
  saveSettings (with_settings (set_trackingMode value (settings w)) w).

Definition previewCursorBlink_onChange (value : bool) (w : World) : World :=
  display (saveSettings (with_settings (set_previewCursorBlink value (settings w)) w)).

End PrivacyScreenSettingTab.

(** ** Commands and events *)

(** The commands [onload] registers, with the arguments it binds. *)
Inductive Command :=
| cmd_toggle
| increase_width | decrease_width
| increase_height | decrease_height
| increase_blur | decrease_blur
| increase_offset | decrease_offset
| reset_settings
| toggle_tracking_mode.

Definition runCommand (app : App) (c : Command) (w : World) : World :=
  match c with
  | cmd_toggle => toggle app w
  | increase_width => adjustSetting key_spotlightWidth 10 24 600 w
  | decrease_width => adjustSetting key_spotlightWidth (-10) 24 600 w
  | increase_height => adjustSetting key_spotlightHeight 10 24 600 w
  | decrease_height => adjustSetting key_spotlightHeight (-10) 24 600 w
  | increase_blur => adjustSetting key_blurIntensity 1 2 20 w
  | decrease_blur => adjustSetting key_blurIntensity (-1) 2 20 w
  | increase_offset => adjustOffset 5 w
  | decrease_offset => adjustOffset (-5) w
  | reset_settings => resetSettings w
  | toggle_tracking_mode => toggleTrackingMode w
  end.

(** What can happen to a loaded plugin: the ribbon icon, a command, the
    three listeners that call [trackCursor], pointer motion, the settings
    tab being shown or hidden, one of its widgets changing, and the
    re-application of the settings that follows a save. *)
Inductive Event :=
| ribbon
| command (c : Command)
| keyup
| click
| active_leaf_change
| mousemove (clientX clientY : Q)
| tab_display
| tab_hide
| change_spotlightWidth (value : Q)
| change_horizontalOffset (value : Q)
| change_spotlightHeight (value : Q)
| change_blurIntensity (value : Q)
| change_featherEdge (value : Q)
| change_spotlightShape (value : SpotlightShape)
| change_squareRoundness (value : Q)
| change_trackingMode (value : TrackingMode)
| change_previewCursorBlink (value : bool)
| settings_applied.

Definition handle (app : App) (e : Event) (w : World) : World :=
  match e with
  | ribbon => toggle app w
  | command c => runCommand app c w
  | keyup | click | active_leaf_change => trackCursor app w
  | mousemove x y => on_mousemove x y w
  | tab_display => PrivacyScreenSettingTab.display w
  | tab_hide => PrivacyScreenSettingTab.hide app w
  | change_spotlightWidth v => PrivacyScreenSettingTab.spotlightWidth_onChange v w
  | change_horizontalOffset v => PrivacyScreenSettingTab.horizontalOffset_onChange v w
  | change_spotlightHeight v => PrivacyScreenSettingTab.spotlightHeight_onChange v w
  | change_blurIntensity v => PrivacyScreenSettingTab.blurIntensity_onChange v w
  | change_featherEdge v => PrivacyScreenSettingTab.featherEdge_onChange v w
  | change_spotlightShape v => PrivacyScreenSettingTab.spotlightShape_onChange v w
  | change_squareRoundness v => PrivacyScreenSettingTab.squareRoundness_onChange v w
  | change_trackingMode v => PrivacyScreenSettingTab.trackingMode_onChange v w
  | change_previewCursorBlink v => PrivacyScreenSettingTab.previewCursorBlink_onChange v w
  | settings_applied => applySettings w
  end.

(** A run: each event is handled to completion, in the host state of the
    moment it arrives. *)
Fixpoint run (trace : list (App * Event)) (w : World) : World :=
  match trace with
  | [] => w
  | (app, e) :: rest => run rest (handle app e w)
  end.

(** The states a loaded plugin can be in. *)
Inductive reachable : World → Prop :=
| reachable_onload app data w :
    onload app data = Some w → reachable w
| reachable_handle app e w :
    reachable w → reachable (handle app e w).

(** ** Predicates of the specification *)

(** [|horizontalOffset| ≤ floor(spotlightWidth / 2) − 5]. *)
Definition offset_within_bound (s : PrivacyScreenSettings) : Prop :=
  Qabs (horizontalOffset s) <= Math.floor (spotlightWidth s / 2) - 5.

Definition offset_within_boundb (s : PrivacyScreenSettings) : bool :=
  Qle_bool (Qabs (horizontalOffset s)) (Math.floor (spotlightWidth s / 2) - 5).

(** The overlay children of [document.body] are exactly the element the
    plugin holds, and it holds one exactly when it is active. *)
Definition surface_owned (w : World) : Prop :=
  body w = match overlayEl w with Some el => [el] | None => [] end
  ∧ (overlayEl w ≠ None ↔ isActive w = true).

(** The mask currently on the overlay element. *)
Definition rendered_mask (w : World) : option MaskImage :=
  el ← overlayEl w; e ← nodes w !! el; style_maskImage e.

(** The overlay state of the specification: [Active] or [Inactive], with
    the surface it has. *)
Definition overlay_state (w : World) : bool * bool :=
  (isActive w, bool_decide (overlayEl w ≠ None)).

(** The fields the lifecycle methods decide on. *)
Definition lifecycle (w : World) : option nat * bool * bool * list nat :=
  (overlayEl w, isActive w, wasActiveBeforePause w, body w).

(** The element the plugin holds is in the store. *)
Definition overlay_allocated (w : World) : Prop :=
  match overlayEl w with
  | Some el => is_Some (nodes w !! el)
  | None => True
  end.

(** The three ways [trackCursor] finds no target: no active markdown
    view, a view without an editor view, no coordinates for the caret. *)
Definition no_cursor_target (app : App) : Prop :=
  getActiveViewOfType app = None
  ∨ (∃ view, getActiveViewOfType app = Some view ∧ editor_cm view = None)
  ∨ (∃ view editorView,
       getActiveViewOfType app = Some view
       ∧ editor_cm view = Some editorView
       ∧ coordsAtPos editorView (selection_main_head editorView) = None).

(** The reading of C9 as it is worded: a key missing from the record
    takes its default, a declared key (one that has a default) present in
    the record overrides it, and a key of the record that is not declared
    is absent from the result. *)
Definition load_drops_undeclared_keys : Prop :=
  ∀ (data : gmap string JSValue) (k : string),
    (data !! k = None →
       loadSettings (Some data) !! k = DEFAULT_SETTINGS_object !! k)
    ∧ (∀ v, k ∈ declared_keys → data !! k = Some v →
         loadSettings (Some data) !! k = Some v)
    ∧ (k ∉ declared_keys → loadSettings (Some data) !! k = None).


(** ** Hosts and records used in the examples *)

(** No markdown view is open. *)
Definition no_view : App := {| getActiveViewOfType := None |}.

(** A markdown view whose caret has the given box. *)
Definition caret_at (r : Rect) : App :=
  {| getActiveViewOfType :=
       Some {| editor_cm :=
                 Some {| selection_main_head := 0%nat;
                         coordsAtPos := λ _, Some r |} |} |}.

(** A first start: nothing was ever saved. *)
Definition first_start : World := new_plugin DEFAULT_SETTINGS None.

(** A record saved by the first variant of the plugin, which had a single
    [spotlightRadius]. *)
Definition legacy_data : gmap string JSValue :=
  list_to_map
    [ ("spotlightRadius", JNumber 100);
      ("blurIntensity", JNumber 12);
      ("featherEdge", JNumber 50) ].

(** ** Further predicates *)

(** A map that has none of the declared names. *)
Definition undeclared_only (m : gmap string JSValue) : Prop :=
  ∀ k, k ∈ declared_keys → m !! k = None.

(** What is in memory and what is on disk. *)
Definition store (w : World) : PrivacyScreenSettings * option (gmap string JSValue) :=
  (settings w, dataJson w).

(** Loading what is on disk gives the settings in memory. *)
Definition persisted_in_sync (w : World) : Prop :=
  as_settings (loadSettings (dataJson w)) = Some (settings w).

(** The stored target point. *)
Definition position (w : World) : Q * Q := (currentX w, currentY w).

(** The events whose handler may move the target point: the three
    listeners that call [trackCursor], and pointer motion. *)
Definition is_tracking (e : Event) : bool :=
  match e with
  | keyup | click | active_leaf_change | mousemove _ _ => true
  | _ => false
  end.

(** The overlay element as the plugin leaves it after every handler: the
    class it was created with, the blur of the settings, and the mask of
    the settings at the stored target point. *)
Definition overlay_in_sync (w : World) : Prop :=
  match overlayEl w with
  | Some el =>
      nodes w !! el
      = Some {| classList := ["privacy-screen-overlay"];
                blur_intensity_px := Some (blurIntensity (settings w));
                style_maskImage :=
                  Some (maskImage_of (settings w) (currentX w) (currentY w)) |}
  | None => True
  end.

(** The element the plugin holds is a [div] of the overlay class. *)
Definition overlay_div (w : World) : Prop :=
  match overlayEl w with
  | Some el => ∃ e, nodes w !! el = Some e ∧ classList e = ["privacy-screen-overlay"]
  | None => True
  end.

(** The constant limits the sliders of the settings tab are given
    ([setLimits]).  The offset slider is not among them: its limits are
    computed from the width when [display] builds the slider, they are
    not a function of the state in which the slider later changes, and
    its [onChange] does not clamp; nothing is assumed of its value. *)
Definition within_slider_limits (e : Event) : Prop :=
  match e with
  | change_spotlightWidth v | change_spotlightHeight v => 24 <= v ∧ v <= 600
  | change_blurIntensity v => 2 <= v ∧ v <= 20
  | change_featherEdge v => 10 <= v ∧ v <= 100
  | change_squareRoundness v => 0 <= v ∧ v <= 100
  | _ => True
  end.

(** The ranges the sliders and the commands share. *)
Definition settings_in_range (s : PrivacyScreenSettings) : Prop :=
  (24 <= spotlightWidth s ∧ spotlightWidth s <= 600)
  ∧ (24 <= spotlightHeight s ∧ spotlightHeight s <= 600)
  ∧ (2 <= blurIntensity s ∧ blurIntensity s <= 20)
  ∧ (10 <= featherEdge s ∧ featherEdge s <= 100)
  ∧ (0 <= squareRoundness s ∧ squareRoundness s <= 100).

(** ** Records on disk *)

Definition number_keys : list string :=
  [ "spotlightWidth"; "spotlightHeight"; "horizontalOffset"; "blurIntensity";
    "featherEdge"; "squareRoundness" ].

Definition boolean_keys : list string := [ "previewCursorBlink"; "wasActive" ].

(** A record in which every declared key that is present holds a value of
    the declared type; any key may be missing, any other key present. *)
Definition well_typed_record (data : gmap string JSValue) : Prop :=
  (∀ k v, k ∈ number_keys → data !! k = Some v → ∃ q, v = JNumber q)
  ∧ (∀ k v, k ∈ boolean_keys → data !! k = Some v → ∃ b, v = JBoolean b)
  ∧ (∀ v, data !! "spotlightShape" = Some v →
       v = JString "circle" ∨ v = JString "square")
  ∧ (∀ v, data !! "trackingMode" = Some v →
       v = JString "cursor" ∨ v = JString "mouse").

(** ** The preview of the settings tab *)

(** The value of [--preview-radius]: ['50%'] or a length in px. *)
Inductive BorderRadius :=
| radius_percent (p : Q)
| radius_px (r : Q).

(** The custom properties [updatePreview] sets, the lengths in px. *)
Record PreviewCssProps := {
  preview_width : Q;
  preview_height : Q;
  preview_offset : Q;
  preview_radius : BorderRadius
}.

(** The two preview elements of the tab: [None] for [null]; the shape
    element carries the properties last set on it, if any. *)
Record PreviewElements := {
  previewShapeEl : option (option PreviewCssProps);
  previewTextEl : option unit
}.

Definition updatePreview (s : PrivacyScreenSettings) (tab : PreviewElements)
    : PreviewElements :=
  match previewShapeEl tab, previewTextEl tab with
  | Some _, Some _ =>
      let borderRadius :=
        match spotlightShape s with
        | circle => radius_percent 50
        | square =>
            let minDim := Math.min (spotlightWidth s) (spotlightHeight s) / 2 in
            let roundness := (squareRoundness s / 100) * minDim in
            radius_px roundness
        end in
      {| previewShapeEl :=
           Some (Some {| preview_width := spotlightWidth s;
                         preview_height := spotlightHeight s;
                         preview_offset := horizontalOffset s;
                         preview_radius := borderRadius |});
         previewTextEl := previewTextEl tab |}
  | _, _ => tab
  end.

(** ** Masks up to the value of their numbers *)

Definition ellipse_equiv (a b : Ellipse) : Prop :=
  ellipse_rx a == ellipse_rx b ∧ ellipse_ry a == ellipse_ry b
  ∧ ellipse_x a == ellipse_x b ∧ ellipse_y a == ellipse_y b.

Definition rect_equiv (a b : SvgRect) : Prop :=
  rect_x a == rect_x b ∧ rect_y a == rect_y b
  ∧ rect_width a == rect_width b ∧ rect_height a == rect_height b
  ∧ rect_rx a == rect_rx b.

Definition mask_equiv (m1 m2 : MaskImage) : Prop :=
  match m1, m2 with
  | RadialGradients i1 o1, RadialGradients i2 o2 =>
      ellipse_equiv i1 i2 ∧ ellipse_equiv o1 o2
  | SvgMask o1 i1, SvgMask o2 i2 => rect_equiv o1 o2 ∧ rect_equiv i1 i2
  | _, _ => False
  end.

(** ** The earlier variants of the plugin *)

(** The first variant (second part of [src/main.ts]): one radius, blur
    and feather, handed to the style sheet as custom properties. *)
Module RadiusVariant.

Record PrivacyScreenSettings := {
  spotlightRadius : Q;
  blurIntensity : Q;
  featherEdge : Q
}.

Definition DEFAULT_SETTINGS : PrivacyScreenSettings :=
  {| spotlightRadius := 100; blurIntensity := 8; featherEdge := 50 |}.

(** The record [saveData] stores for these settings. *)
Definition to_object (s : PrivacyScreenSettings) : gmap string JSValue :=
  list_to_map
    [ ("spotlightRadius", JNumber (spotlightRadius s));
      ("blurIntensity", JNumber (blurIntensity s));
      ("featherEdge", JNumber (featherEdge s)) ].

End RadiusVariant.

(** The second variant (third part of [src/main.ts]): width, height and
    shape, no offset, no tracking mode, nothing remembered of the overlay. *)
Module ShapeVariant.

Record PrivacyScreenSettings := {
  spotlightWidth : Q;
  spotlightHeight : Q;
  blurIntensity : Q;
  featherEdge : Q;
  spotlightShape : SpotlightShape;
  squareRoundness : Q
}.

Definition DEFAULT_SETTINGS : PrivacyScreenSettings :=
  {| spotlightWidth := 200; spotlightHeight := 100; blurIntensity := 8;
     featherEdge := 50; spotlightShape := circle; squareRoundness := 20 |}.

(** The record [saveData] stores for these settings. *)
Definition to_object (s : PrivacyScreenSettings) : gmap string JSValue :=
  list_to_map
    [ ("spotlightWidth", JNumber (spotlightWidth s));
      ("spotlightHeight", JNumber (spotlightHeight s));
      ("blurIntensity", JNumber (blurIntensity s));
      ("featherEdge", JNumber (featherEdge s));
      ("spotlightShape", shape_value (spotlightShape s));
      ("squareRoundness", JNumber (squareRoundness s)) ].

(** The value its [updateMask] computes; [createSquareMask] is the same
    function as in the full variant. *)
Definition maskImage_of (s : PrivacyScreenSettings) (currentX currentY : Q) : MaskImage :=
  let x := currentX in
  let y := currentY in
  let rx := spotlightWidth s / 2 in
  let ry := spotlightHeight s / 2 in
  match spotlightShape s with
  | square =>
      let minDimension := Math.min rx ry in
      let roundness := (squareRoundness s / 100) * minDimension in
      createSquareMask x y (spotlightWidth s) (spotlightHeight s) roundness (featherEdge s)
  | circle =>
      let outerRx := rx + featherEdge s in
      let outerRy := ry + featherEdge s in
      RadialGradients
        {| ellipse_rx := rx; ellipse_ry := ry; ellipse_x := x; ellipse_y := y |}
        {| ellipse_rx := outerRx; ellipse_ry := outerRy; ellipse_x := x; ellipse_y := y |}
  end.

End ShapeVariant.

(** The events whose handler may create or remove the overlay: the toggle
    (ribbon or command), the settings tab being shown or hidden, and the
    three widgets that show the tab again. *)
Definition touches_overlay (e : Event) : bool :=
  match e with
  | ribbon | command cmd_toggle | tab_display | tab_hide
  | change_spotlightWidth _ | change_spotlightShape _
  | change_previewCursorBlink _ => true
  | _ => false
  end.

(** ** The numbers of the mask in binary64 *)

(** The arithmetic of [updateMask] and [createSquareMask] as JavaScript
    performs it: a number is an IEEE 754 binary64 value and every
    operation rounds to nearest.  The functions are those of the exact
    model above, line by line, over [float]; they take the settings
    [updateMask] destructures and the stored target point. *)
Module Binary64.

Local Open Scope float_scope.

Module Math.

(** [Math.min] of two numbers: NaN if either is NaN, otherwise the
    smaller, with -0 below +0. *)
Definition min (a b : float) : float :=
  if (PrimFloat.is_nan a || PrimFloat.is_nan b)%bool then PrimFloat.nan
  else if PrimFloat.ltb a b then a
  else if PrimFloat.ltb b a then b
  else if PrimFloat.get_sign a then a else b.

End Math.

Record MaskSettings := {
  spotlightWidth : float;
  spotlightHeight : float;
  horizontalOffset : float;
  featherEdge : float;
  spotlightShape : SpotlightShape;
  squareRoundness : float
}.

Record Ellipse := {
  ellipse_rx : float;
  ellipse_ry : float;
  ellipse_x : float;
  ellipse_y : float
}.

Record SvgRect := {
  rect_x : float;
  rect_y : float;
  rect_width : float;
  rect_height : float;
  rect_rx : float
}.

Inductive MaskImage :=
| RadialGradients (inner outer : Ellipse)
| SvgMask (outer inner : SvgRect).

Definition createSquareMask (cx cy width height roundness feather : float) : MaskImage :=
  let left := cx - width / 2 in
  let top := cy - height / 2 in
  let outerLeft := left - feather in
  let outerTop := top - feather in
  let outerWidth := width + feather * 2 in
  let outerHeight := height + feather * 2 in
  let outerRoundness := roundness + feather in
  SvgMask
    {| rect_x := outerLeft; rect_y := outerTop; rect_width := outerWidth;
       rect_height := outerHeight; rect_rx := outerRoundness |}
    {| rect_x := left; rect_y := top; rect_width := width;
       rect_height := height; rect_rx := roundness |}.

Definition maskImage_of (s : MaskSettings) (currentX currentY : float) : MaskImage :=
  let x := currentX + horizontalOffset s in
  let y := currentY in
  let rx := spotlightWidth s / 2 in
  let ry := spotlightHeight s / 2 in
  match spotlightShape s with
  | square =>
      let minDimension := Math.min rx ry in
      let roundness := (squareRoundness s / 100) * minDimension in
      createSquareMask x y (spotlightWidth s) (spotlightHeight s) roundness (featherEdge s)
  | circle =>
      let outerRx := rx + featherEdge s in
      let outerRy := ry + featherEdge s in
      RadialGradients
        {| ellipse_rx := rx; ellipse_ry := ry; ellipse_x := x; ellipse_y := y |}
        {| ellipse_rx := outerRx; ellipse_ry := outerRy; ellipse_x := x; ellipse_y := y |}
  end.

(** The rational a finite binary64 number is; [None] for NaN and the
    infinities. *)
Definition value (f : float) : option Q :=
  match Prim2SF f with
  | S754_zero _ => Some 0%Q
  | S754_finite s m e =>
      let n := if s then Z.neg m else Z.pos m in
      Some (match e with
            | Z0 => inject_Z n
            | Zpos p => inject_Z (n * 2 ^ Zpos p)
            | Zneg p => Qmake n (2 ^ p)
            end)
  | _ => None
  end.

(** The binary64 number of a small natural number, as a slider or a
    command delivers it. *)
Definition of_Z (z : Z) : float := PrimFloat.of_uint63 (Uint63.of_Z z).

(** [f] is finite and is the rational [q]. *)
Definition has_value (f : float) (q : Q) : Prop :=
  ∃ v, value f = Some v ∧ (v == q)%Q.

(** [f] is finite and within [eps] of the rational [q]. *)
Definition within (eps : Q) (f : float) (q : Q) : Prop :=
  ∃ v, value f = Some v ∧ (Qabs (v - q) <= eps)%Q.

(** [f] is a binary64 number nearest to the rational [q]: no finite
    binary64 number is closer. *)
Definition nearest (q : Q) (f : float) : Prop :=
  ∃ v, value f = Some v
       ∧ ∀ g u, value g = Some u → (Qabs (v - q) <= Qabs (u - q))%Q.

(** The integers from [lo] to [hi]. *)
Definition Zrange (lo hi : Z) : list Z :=
  map (λ n, (lo + Z.of_nat n)%Z) (seq 0 (Z.to_nat (hi - lo + 1))).

(** The checks run over the slider range. *)
Definition min_halves_ok (W H : Z) : bool :=
  PrimFloat.Leibniz.eqb (Math.min (of_Z W / 2) (of_Z H / 2))
                        (Math.min (of_Z W) (of_Z H) / 2)
  && PrimFloat.Leibniz.eqb (Math.min (of_Z W) (of_Z H)) (of_Z (Z.min W H)).

Definition value_is (f : float) (q : Q) : bool :=
  match value f with Some v => Qeq_bool v q | None => false end.

Definition value_within (eps : Q) (f : float) (q : Q) : bool :=
  match value f with Some v => Qle_bool (Qabs (v - q)) eps | None => false end.

Definition half_ok (K : Z) : bool :=
  value_is (of_Z K) (inject_Z K)
  && value_is (of_Z K / 2) (inject_Z K / 2)
  && PrimFloat.Leibniz.eqb ((of_Z 100 / 100) * (of_Z K / 2)) (of_Z K / 2).

Definition roundness_ok (R K : Z) : bool :=
  value_within (1 # 2 ^ 44) ((of_Z R / 100) * (of_Z K / 2))
               ((inject_Z R / 100) * (inject_Z K / 2)).

Definition outer_size_ok (K F : Z) : bool :=
  value_is (of_Z K + of_Z F * 2) (inject_Z K + 2 * inject_Z F).

End Binary64.

(** The reading of C6 as it is worded, of the numbers the code computes:
    for settings as the sliders deliver them (integers in the slider
    ranges) and a finite offset and target point, each number of the
    square mask is the value the claim gives for it, as near as a
    binary64 number can be. *)
Definition square_mask_as_claimed : Prop :=
  ∀ (W H R F : Z) (offset cx cy : float) (off x y : Q),
    (24 ≤ W ≤ 600)%Z → (24 ≤ H ≤ 600)%Z → (0 ≤ R ≤ 100)%Z → (10 ≤ F ≤ 100)%Z →
    Binary64.value offset = Some off →
    Binary64.value cx = Some x → Binary64.value cy = Some y →
    let s := {| Binary64.spotlightWidth := Binary64.of_Z W;
                Binary64.spotlightHeight := Binary64.of_Z H;
                Binary64.horizontalOffset := offset;
                Binary64.featherEdge := Binary64.of_Z F;
                Binary64.spotlightShape := square;
                Binary64.squareRoundness := Binary64.of_Z R |} in
    let w := inject_Z W in
    let h := inject_Z H in
    let f := inject_Z F in
    let inner_radius := (inject_Z R / 100) * (Qmin w h / 2) in
    ∃ outer inner,
      Binary64.maskImage_of s cx cy = Binary64.SvgMask outer inner
      ∧ Binary64.nearest inner_radius (Binary64.rect_rx inner)
      ∧ Binary64.nearest (inner_radius + f) (Binary64.rect_rx outer)
      ∧ Binary64.nearest w (Binary64.rect_width inner)
      ∧ Binary64.nearest h (Binary64.rect_height inner)
      ∧ Binary64.nearest (x + off - w / 2) (Binary64.rect_x inner)
      ∧ Binary64.nearest (y - h / 2) (Binary64.rect_y inner)
      ∧ Binary64.nearest (x + off - w / 2 - f) (Binary64.rect_x outer)
      ∧ Binary64.nearest (y - h / 2 - f) (Binary64.rect_y outer)
      ∧ Binary64.nearest (w + 2 * f) (Binary64.rect_width outer)
      ∧ Binary64.nearest (h + 2 * f) (Binary64.rect_height outer)
      ∧ (R = 100%Z → Binary64.nearest (Qmin w h / 2) (Binary64.rect_rx inner)).

(** * Proofs *)

Example loadSettings_none : as_settings (loadSettings None) = Some DEFAULT_SETTINGS.
Proof. vm_compute. reflexivity. Qed.

(** ** What each method leaves alone *)

Lemma lifecycle_updateMask w : lifecycle (updateMask w) = lifecycle w.
Proof.
  unfold lifecycle, updateMask.
  destruct (overlayEl w) eqn:E; simpl; rewrite ?E; reflexivity.
Qed.

Lemma lifecycle_applySettings w : lifecycle (applySettings w) = lifecycle w.
Proof.
  unfold applySettings.
  destruct (overlayEl w) eqn:E; [|reflexivity].
  rewrite lifecycle_updateMask. unfold lifecycle; simpl. rewrite E. reflexivity.
Qed.

Lemma lifecycle_updateSpotlightPosition x y w :
  lifecycle (updateSpotlightPosition x y w) = lifecycle w.
Proof. unfold updateSpotlightPosition. rewrite lifecycle_updateMask. reflexivity. Qed.

Lemma lifecycle_trackCursor app w : lifecycle (trackCursor app w) = lifecycle w.
Proof.
  unfold trackCursor.
  destruct (negb (isActive w)); [reflexivity|].
  destruct (getActiveViewOfType app) as [view|]; [|reflexivity].
  destruct (editor_cm view) as [ev|]; [|reflexivity].
  destruct (coordsAtPos ev (selection_main_head ev)); [|reflexivity].
  apply lifecycle_updateSpotlightPosition.
Qed.

Lemma lifecycle_on_mousemove x y w : lifecycle (on_mousemove x y w) = lifecycle w.
Proof.
  unfold on_mousemove.
  destruct (isActive w), (trackingMode (settings w));
    auto using lifecycle_updateSpotlightPosition.
Qed.

Lemma lifecycle_saveSettings w : lifecycle (saveSettings w) = lifecycle w.
Proof. unfold saveSettings. rewrite lifecycle_applySettings. reflexivity. Qed.

Lemma lifecycle_save_with_settings s w :
  lifecycle (saveSettings (with_settings s w)) = lifecycle w.
Proof. rewrite lifecycle_saveSettings. reflexivity. Qed.

Lemma lifecycle_createOverlay app w :
  lifecycle (createOverlay app w)
  = (Some (nextNode w), isActive w, wasActiveBeforePause w, body w ++ [nextNode w]).
Proof.
  unfold createOverlay.
  rewrite lifecycle_trackCursor, lifecycle_applySettings. reflexivity.
Qed.

Lemma lifecycle_removeOverlay w :
  lifecycle (removeOverlay w)
  = (None, isActive w, wasActiveBeforePause w,
     match overlayEl w with
     | Some el => filter (λ n, n ≠ el) (body w)
     | None => body w
     end).
Proof.
  unfold lifecycle, removeOverlay.
  destruct (overlayEl w) eqn:E; simpl; rewrite ?E; reflexivity.
Qed.

Lemma lifecycle_with_isActive b w :
  lifecycle (with_isActive b w)
  = (overlayEl w, b, wasActiveBeforePause w, body w).
Proof. reflexivity. Qed.

Lemma lifecycle_inj w o a p l :
  lifecycle w = (o, a, p, l) →
  overlayEl w = o ∧ isActive w = a ∧ wasActiveBeforePause w = p ∧ body w = l.
Proof. unfold lifecycle. intros H. injection H. auto. Qed.

(** ** The surface invariant *)

Lemma surface_owned_lifecycle w w' :
  lifecycle w' = lifecycle w → surface_owned w → surface_owned w'.
Proof.
  intros H. apply lifecycle_inj in H as (Ho & Ha & _ & Hb).
  unfold surface_owned. rewrite Ho, Ha, Hb. auto.
Qed.

Lemma filter_out_single (el : nat) : filter (λ n, n ≠ el) [el] = [].
Proof.
  rewrite filter_cons, filter_nil. destruct (decide (el ≠ el)); congruence.
Qed.

(** Entering [Active]: from a state that owns no surface, create one and
    raise the flag. *)
Lemma surface_owned_enter app w :
  surface_owned w → isActive w = false →
  surface_owned (with_isActive true (createOverlay app w)).
Proof.
  intros [Hb Hi] Ha.
  destruct (overlayEl w) as [el|] eqn:E.
  { exfalso. rewrite Ha in Hi. assert (Some el ≠ None) as X by discriminate.
    apply Hi in X. discriminate. }
  pose proof (lifecycle_createOverlay app w) as L.
  apply lifecycle_inj in L as (Lo & _ & _ & Lb).
  unfold surface_owned. simpl. rewrite Lo, Lb, Hb. simpl.
  split; [reflexivity|]. split; [reflexivity | discriminate].
Qed.

(** Leaving [Active]: remove the surface and drop the flag. *)
Lemma surface_owned_leave w :
  surface_owned w →
  surface_owned (with_isActive false (removeOverlay w)).
Proof.
  intros [Hb Hi].
  pose proof (lifecycle_removeOverlay w) as L.
  apply lifecycle_inj in L as (Lo & _ & _ & Lb).
  unfold surface_owned. simpl. rewrite Lo, Lb.
  split.
  - destruct (overlayEl w) as [el|]; [|assumption].
    rewrite Hb. apply filter_out_single.
  - split; [congruence | discriminate].
Qed.

Lemma surface_owned_toggle app w : surface_owned w → surface_owned (toggle app w).
Proof.
  intros H. unfold toggle.
  eapply surface_owned_lifecycle; [apply lifecycle_save_with_settings|].
  destruct (isActive w) eqn:Ha.
  - pose proof (surface_owned_leave w H) as X.
    assert (isActive (removeOverlay w) = true) as ->; [|exact X].
    pose proof (lifecycle_removeOverlay w) as L.
    apply lifecycle_inj in L as (_ & L & _). congruence.
  - pose proof (surface_owned_enter app w H Ha) as X.
    assert (isActive (createOverlay app w) = false) as ->; [|exact X].
    pose proof (lifecycle_createOverlay app w) as L.
    apply lifecycle_inj in L as (_ & L & _). congruence.
Qed.

Lemma surface_owned_pauseOverlay w : surface_owned w → surface_owned (pauseOverlay w).
Proof.
  intros H. unfold pauseOverlay. simpl.
  assert (surface_owned (with_wasActiveBeforePause (isActive w) w)) as H' by exact H.
  destruct (isActive w); [apply surface_owned_leave|]; exact H'.
Qed.

Lemma surface_owned_resumeOverlay app w :
  surface_owned w → surface_owned (resumeOverlay app w).
Proof.
  intros H. unfold resumeOverlay.
  destruct (wasActiveBeforePause w); simpl; [|exact H].
  destruct (isActive w) eqn:Ha; simpl; [exact H|].
  apply surface_owned_enter; assumption.
Qed.

Lemma surface_owned_runCommand app c w :
  surface_owned w → surface_owned (runCommand app c w).
Proof.
  intros H.
  destruct c; cbn [runCommand];
    [ apply surface_owned_toggle; exact H | .. ];
    unfold adjustSetting, adjustOffset, resetSettings, toggleTrackingMode;
    (eapply surface_owned_lifecycle;
     [apply lifecycle_save_with_settings | exact H]).
Qed.

Lemma surface_owned_handle app e w :
  surface_owned w → surface_owned (handle app e w).
Proof.
  intros H.
  assert (∀ s, surface_owned (saveSettings (with_settings s w))) as Hsave.
  { intros s. eapply surface_owned_lifecycle;
      [apply lifecycle_save_with_settings | exact H]. }
  destruct e; cbn [handle];
    unfold PrivacyScreenSettingTab.hide,
      PrivacyScreenSettingTab.spotlightWidth_onChange,
      PrivacyScreenSettingTab.horizontalOffset_onChange,
      PrivacyScreenSettingTab.spotlightHeight_onChange,
      PrivacyScreenSettingTab.blurIntensity_onChange,
      PrivacyScreenSettingTab.featherEdge_onChange,
      PrivacyScreenSettingTab.spotlightShape_onChange,
      PrivacyScreenSettingTab.squareRoundness_onChange,
      PrivacyScreenSettingTab.trackingMode_onChange,
      PrivacyScreenSettingTab.previewCursorBlink_onChange,
      PrivacyScreenSettingTab.display.
  - apply surface_owned_toggle; exact H.
  - apply surface_owned_runCommand; exact H.
  - eapply surface_owned_lifecycle; [apply lifecycle_trackCursor | exact H].
  - eapply surface_owned_lifecycle; [apply lifecycle_trackCursor | exact H].
  - eapply surface_owned_lifecycle; [apply lifecycle_trackCursor | exact H].
  - eapply surface_owned_lifecycle; [apply lifecycle_on_mousemove | exact H].
  - apply surface_owned_pauseOverlay; exact H.
  - apply surface_owned_resumeOverlay; exact H.
  - apply surface_owned_pauseOverlay, Hsave.
  - apply Hsave.
  - apply Hsave.
  - apply Hsave.
  - apply Hsave.
  - apply surface_owned_pauseOverlay, Hsave.
  - apply Hsave.
  - apply Hsave.
  - apply surface_owned_pauseOverlay, Hsave.
  - eapply surface_owned_lifecycle; [apply lifecycle_applySettings | exact H].
Qed.

Lemma surface_owned_onload app data w :
  onload app data = Some w → surface_owned w.
Proof.
  unfold onload. intros H.
  destruct (as_settings (loadSettings data)) as [s|]; [|discriminate].
  simpl in H. injection H as <-.
  assert (surface_owned (new_plugin s data)) as H0.
  { split; [reflexivity|]. simpl. split; [congruence | discriminate]. }
  destruct (wasActive s); [|exact H0].
  apply surface_owned_enter; [exact H0 | reflexivity].
Qed.

Lemma surface_owned_reachable w : reachable w → surface_owned w.
Proof.
  induction 1 as [app data w H | app e w _ IH].
  - eapply surface_owned_onload; eassumption.
  - apply surface_owned_handle; assumption.
Qed.

(** ** The element the plugin holds exists *)

Lemma overlay_allocated_updateMask w :
  overlay_allocated w → overlay_allocated (updateMask w).
Proof.
  unfold overlay_allocated, updateMask.
  destruct (overlayEl w) as [el|] eqn:E; simpl; rewrite E; [|trivial].
  intros [e He]. rewrite lookup_alter_eq, He. eexists; reflexivity.
Qed.

Lemma overlay_allocated_applySettings w :
  overlay_allocated w → overlay_allocated (applySettings w).
Proof.
  unfold applySettings. intros H.
  destruct (overlayEl w) as [el|] eqn:E; [|exact H].
  apply overlay_allocated_updateMask.
  unfold overlay_allocated in *; simpl. rewrite E in *.
  destruct H as [e He]. rewrite lookup_alter_eq, He. eexists; reflexivity.
Qed.

Lemma overlay_allocated_trackCursor app w :
  overlay_allocated w → overlay_allocated (trackCursor app w).
Proof.
  unfold trackCursor. intros H.
  destruct (negb (isActive w)); [exact H|].
  destruct (getActiveViewOfType app) as [view|]; [|exact H].
  destruct (editor_cm view) as [ev|]; [|exact H].
  destruct (coordsAtPos ev (selection_main_head ev)); [|exact H].
  apply overlay_allocated_updateMask. exact H.
Qed.

Lemma overlay_allocated_on_mousemove x y w :
  overlay_allocated w → overlay_allocated (on_mousemove x y w).
Proof.
  unfold on_mousemove. intros H.
  destruct (isActive w), (trackingMode (settings w)); try exact H.
  apply overlay_allocated_updateMask. exact H.
Qed.

Lemma overlay_allocated_save_with_settings s w :
  overlay_allocated w → overlay_allocated (saveSettings (with_settings s w)).
Proof. intros H. apply overlay_allocated_applySettings. exact H. Qed.

Lemma overlay_allocated_createOverlay app w :
  overlay_allocated (createOverlay app w).
Proof.
  unfold createOverlay.
  apply overlay_allocated_trackCursor, overlay_allocated_applySettings.
  unfold overlay_allocated; simpl. rewrite lookup_insert_eq. eexists; reflexivity.
Qed.

Lemma overlay_allocated_removeOverlay w : overlay_allocated (removeOverlay w).
Proof.
  unfold overlay_allocated, removeOverlay.
  destruct (overlayEl w) eqn:E; simpl; rewrite ?E; trivial.
Qed.

Lemma overlay_allocated_toggle app w :
  overlay_allocated w → overlay_allocated (toggle app w).
Proof.
  intros H. unfold toggle. apply overlay_allocated_save_with_settings.
  destruct (isActive w);
    [ exact (overlay_allocated_removeOverlay w)
    | exact (overlay_allocated_createOverlay app w) ].
Qed.

Lemma overlay_allocated_pauseOverlay w :
  overlay_allocated w → overlay_allocated (pauseOverlay w).
Proof.
  intros H. unfold pauseOverlay. simpl.
  destruct (isActive w); [|exact H].
  exact (overlay_allocated_removeOverlay (with_wasActiveBeforePause true w)).
Qed.

Lemma overlay_allocated_resumeOverlay app w :
  overlay_allocated w → overlay_allocated (resumeOverlay app w).
Proof.
  intros H. unfold resumeOverlay.
  destruct (wasActiveBeforePause w && negb (isActive w)); [|exact H].
  exact (overlay_allocated_createOverlay app w).
Qed.

Lemma overlay_allocated_runCommand app c w :
  overlay_allocated w → overlay_allocated (runCommand app c w).
Proof.
  intros H.
  destruct c; cbn [runCommand];
    [ apply overlay_allocated_toggle; exact H | .. ];
    unfold adjustSetting, adjustOffset, resetSettings, toggleTrackingMode;
    apply overlay_allocated_save_with_settings; exact H.
Qed.

Lemma overlay_allocated_handle app e w :
  overlay_allocated w → overlay_allocated (handle app e w).
Proof.
  intros H.
  pose proof (λ s, overlay_allocated_save_with_settings s w H) as Hsave.
  destruct e; cbn [handle];
    unfold PrivacyScreenSettingTab.hide,
      PrivacyScreenSettingTab.spotlightWidth_onChange,
      PrivacyScreenSettingTab.horizontalOffset_onChange,
      PrivacyScreenSettingTab.spotlightHeight_onChange,
      PrivacyScreenSettingTab.blurIntensity_onChange,
      PrivacyScreenSettingTab.featherEdge_onChange,
      PrivacyScreenSettingTab.spotlightShape_onChange,
      PrivacyScreenSettingTab.squareRoundness_onChange,
      PrivacyScreenSettingTab.trackingMode_onChange,
      PrivacyScreenSettingTab.previewCursorBlink_onChange,
      PrivacyScreenSettingTab.display.
  - apply overlay_allocated_toggle; exact H.
  - apply overlay_allocated_runCommand; exact H.
  - apply overlay_allocated_trackCursor; exact H.
  - apply overlay_allocated_trackCursor; exact H.
  - apply overlay_allocated_trackCursor; exact H.
  - apply overlay_allocated_on_mousemove; exact H.
  - apply overlay_allocated_pauseOverlay; exact H.
  - apply overlay_allocated_resumeOverlay; exact H.
  - apply overlay_allocated_pauseOverlay, Hsave.
  - apply Hsave.
  - apply Hsave.
  - apply Hsave.
  - apply Hsave.
  - apply overlay_allocated_pauseOverlay, Hsave.
  - apply Hsave.
  - apply Hsave.
  - apply overlay_allocated_pauseOverlay, Hsave.
  - apply overlay_allocated_applySettings; exact H.
Qed.

Lemma overlay_allocated_reachable w : reachable w → overlay_allocated w.
Proof.
  induction 1 as [app data w H | app e w _ IH].
  - unfold onload in H.
    destruct (as_settings (loadSettings data)) as [s|]; [|discriminate].
    simpl in H. injection H as <-.
    destruct (wasActive s); [|exact I].
    exact (overlay_allocated_createOverlay app (new_plugin s data)).
  - apply overlay_allocated_handle; assumption.
Qed.

(** In a reachable state an active plugin holds an element of the store. *)
Lemma active_has_overlay w :
  reachable w → isActive w = true →
  ∃ el e, overlayEl w = Some el ∧ nodes w !! el = Some e.
Proof.
  intros Hr Ha.
  pose proof (surface_owned_reachable w Hr) as [_ Hi].
  pose proof (overlay_allocated_reachable w Hr) as Hal.
  unfold overlay_allocated in Hal.
  destruct (overlayEl w) as [el|].
  - destruct Hal as [e He]. eauto.
  - apply Hi in Ha. congruence.
Qed.

Lemma onload_first_start app : onload app None = Some first_start.
Proof. vm_compute. reflexivity. Qed.

Lemma reachable_run trace w : reachable w → reachable (run trace w).
Proof.
  revert w. induction trace as [|[app e] rest IH]; intros w H; simpl; [exact H|].
  apply IH. apply reachable_handle. exact H.
Qed.

Lemma reachable_from_first_start trace : reachable (run trace first_start).
Proof.
  apply reachable_run.
  apply (reachable_onload no_view None), onload_first_start.
Qed.

(** * The claims *)

(** ** C4: one surface, held exactly while active *)

(** C4.  In every state reachable from [onload] (whatever was persisted,
    so also when the overlay is restored on load) by any sequence of
    events (toggling, pausing, resuming, cursor and pointer tracking, and
    every other handler of the plugin), the plugin holds an overlay
    element if and only if it is active; the overlay children of the
    document body are that element and nothing else, so there is at most
    one and none that the plugin does not hold. *)
Theorem overlay_iff_active w :
  reachable w →
  (overlayEl w ≠ None ↔ isActive w = true)
  ∧ body w = match overlayEl w with Some el => [el] | None => [] end
  ∧ (length (body w) ≤ 1)%nat.
Proof.
  intros Hr. destruct (surface_owned_reachable w Hr) as [Hb Hi].
  repeat split; try apply Hi; try exact Hb.
  rewrite Hb. destruct (overlayEl w); simpl; lia.
Qed.

Lemma overlay_iff_active_witness :
  let w := run [(no_view, ribbon); (no_view, tab_display);
                (no_view, tab_display); (no_view, tab_hide);
                (no_view, ribbon); (caret_at (Build_Rect 10 11 20 40), click)]
               first_start in
  (overlayEl w ≠ None ↔ isActive w = true)
  ∧ body w = match overlayEl w with Some el => [el] | None => [] end
  ∧ (length (body w) ≤ 1)%nat.
Proof.
  intros w. apply (overlay_iff_active w).
  apply reachable_from_first_start.
Defined.

(** ** C8: no cursor target *)

(** C8.  When the cursor target cannot be resolved, [trackCursor] returns
    the state it was given: in particular the stored position and the
    mask on the overlay are the ones from before. *)
Theorem trackCursor_no_target app w :
  no_cursor_target app →
  trackCursor app w = w
  ∧ currentX (trackCursor app w) = currentX w
  ∧ currentY (trackCursor app w) = currentY w
  ∧ rendered_mask (trackCursor app w) = rendered_mask w.
Proof.
  intros H.
  assert (trackCursor app w = w) as E.
  { unfold trackCursor. destruct (negb (isActive w)); [reflexivity|].
    destruct H as [H | [(view & Hv & He) | (view & ev & Hv & He & Hc)]].
    - rewrite H. reflexivity.
    - rewrite Hv, He. reflexivity.
    - rewrite Hv, He, Hc. reflexivity. }
  rewrite E. auto.
Qed.

Lemma trackCursor_no_target_witness :
  let app := {| getActiveViewOfType := Some {| editor_cm := None |} |} in
  let w := run [(no_view, ribbon)] first_start in
  trackCursor app w = w
  ∧ currentX (trackCursor app w) = currentX w
  ∧ currentY (trackCursor app w) = currentY w
  ∧ rendered_mask (trackCursor app w) = rendered_mask w.
Proof.
  intros app w. apply (trackCursor_no_target app w).
  right. left. exists {| editor_cm := None |}. split; reflexivity.
Defined.

(** ** C7 and C10: reset *)

Lemma settings_applySettings w : settings (applySettings w) = settings w.
Proof.
  unfold applySettings, updateMask.
  destruct (overlayEl w) eqn:E; simpl; rewrite ?E; reflexivity.
Qed.

Lemma dataJson_applySettings w : dataJson (applySettings w) = dataJson w.
Proof.
  unfold applySettings, updateMask.
  destruct (overlayEl w) eqn:E; simpl; rewrite ?E; reflexivity.
Qed.

Lemma current_applySettings w :
  currentX (applySettings w) = currentX w ∧ currentY (applySettings w) = currentY w.
Proof.
  unfold applySettings, updateMask.
  destruct (overlayEl w) eqn:E; simpl; rewrite ?E; auto.
Qed.

Lemma settings_save_with_settings s w :
  settings (saveSettings (with_settings s w)) = s.
Proof. unfold saveSettings. rewrite settings_applySettings. reflexivity. Qed.

Lemma dataJson_save_with_settings s w :
  dataJson (saveSettings (with_settings s w)) = Some (to_object s).
Proof. unfold saveSettings. rewrite dataJson_applySettings. reflexivity. Qed.

(** C7.  After [resetSettings] the settings are the compiled-in defaults,
    field by field, with no other property left on the object, and the
    record handed to [saveData] is that of the defaults. *)
Theorem resetSettings_defaults w :
  let s := settings (resetSettings w) in
  s = DEFAULT_SETTINGS
  ∧ spotlightWidth s = 200
  ∧ spotlightHeight s = 100
  ∧ horizontalOffset s = 0
  ∧ blurIntensity s = 8
  ∧ featherEdge s = 50
  ∧ spotlightShape s = circle
  ∧ squareRoundness s = 20
  ∧ trackingMode s = cursor
  ∧ dataJson (resetSettings w) = Some (to_object s)
  ∧ (dataJson (resetSettings w) ≫= as_settings) = Some DEFAULT_SETTINGS.
Proof.
  unfold resetSettings. cbv zeta.
  rewrite settings_save_with_settings, dataJson_save_with_settings.
  repeat apply conj; reflexivity.
Qed.

(** C10.  [resetSettings] leaves [isActive], [overlayEl], [currentX] and
    [currentY] (and the pause flag and the children of the body) as they
    were; the saved record has [wasActive] false whatever [isActive] is,
    and loading that record starts the plugin inactive, with no overlay. *)
Theorem resetSettings_frame app w :
  let w' := resetSettings w in
  isActive w' = isActive w
  ∧ overlayEl w' = overlayEl w
  ∧ currentX w' = currentX w
  ∧ currentY w' = currentY w
  ∧ wasActiveBeforePause w' = wasActiveBeforePause w
  ∧ body w' = body w
  ∧ wasActive (settings w') = false
  ∧ (dataJson w' ≫= (.!! "wasActive")) = Some (JBoolean false)
  ∧ ∃ w2, onload app (dataJson w') = Some w2
          ∧ isActive w2 = false ∧ overlayEl w2 = None ∧ body w2 = [].
Proof.
  unfold resetSettings. cbv zeta.
  pose proof (lifecycle_save_with_settings DEFAULT_SETTINGS w) as L.
  apply lifecycle_inj in L as (Lo & La & Lp & Lb).
  destruct (current_applySettings (saveData DEFAULT_SETTINGS
                                     (with_settings DEFAULT_SETTINGS w))) as [Hx Hy].
  rewrite settings_save_with_settings, dataJson_save_with_settings.
  split; [exact La|]. split; [exact Lo|].
  split; [exact Hx|]. split; [exact Hy|].
  split; [exact Lp|]. split; [exact Lb|].
  split; [reflexivity|]. split; [vm_compute; reflexivity|].
  eexists. split; [vm_compute; reflexivity|]. repeat split.
Qed.

(** ** C9: loading *)

Lemma loadSettings_unfold (data : option (gmap string JSValue)) :
  loadSettings data
  = match data with
    | Some o => delete "__proto__" o ∪ DEFAULT_SETTINGS_object
    | None => DEFAULT_SETTINGS_object
    end.
Proof.
  unfold loadSettings, Object_assign. cbn [foldl].
  rewrite (right_id_L ∅ (∪)).
  rewrite (delete_id DEFAULT_SETTINGS_object "__proto__") by reflexivity.
  reflexivity.
Qed.

(** C9, counterexample.  Loading [legacy_data] yields an object that still
    has [spotlightRadius], although no field of that name is declared. *)
Lemma load_keeps_spotlightRadius : ¬ load_drops_undeclared_keys.
Proof.
  intros H.
  destruct (H legacy_data "spotlightRadius") as (_ & _ & Habsent).
  assert (loadSettings (Some legacy_data) !! "spotlightRadius" = Some (JNumber 100))
    as Hkept by (vm_compute; reflexivity).
  rewrite Habsent in Hkept; [discriminate|].
  intros Hin. unfold declared_keys in Hin.
  repeat (apply elem_of_cons in Hin as [Hin | Hin]; [discriminate Hin|]).
  apply elem_of_nil in Hin. exact Hin.
Qed.

(** C9, amended.  Whatever was persisted, every key of the loaded object
    other than [__proto__] has the persisted value when the record has
    that key, declared or not, and the compiled-in default otherwise
    (none, for a key that is not declared); [__proto__] is never a key of
    the loaded object, whether the record has it or not. *)
Theorem loadSettings_lookup (data : option (gmap string JSValue)) (k : string) :
  loadSettings data !! k
  = if decide (k = "__proto__") then None
    else match data ≫= (.!! k) with
         | Some v => Some v
         | None => DEFAULT_SETTINGS_object !! k
         end.
Proof.
  rewrite loadSettings_unfold.
  destruct data as [o|]; cbn [mbind option_bind].
  - destruct (decide (k = "__proto__")) as [-> | Hk].
    + apply lookup_union_None. split; [apply lookup_delete_eq | reflexivity].
    + destruct (o !! k) as [v|] eqn:E.
      * apply lookup_union_Some_l. rewrite lookup_delete_ne by congruence. exact E.
      * apply lookup_union_r. rewrite lookup_delete_ne by congruence. exact E.
  - destruct (decide (k = "__proto__")) as [-> | Hk]; reflexivity.
Qed.

(** The undeclared properties stay on the settings value and are saved
    with it. *)
Lemma load_then_save_keeps_spotlightRadius :
  (as_settings (loadSettings (Some legacy_data)) ≫= λ s,
     dataJson (saveSettings (new_plugin s (Some legacy_data))) ≫=
     (.!! "spotlightRadius"))
  = Some (JNumber 100).
Proof. vm_compute. reflexivity. Qed.

(** ** C1: the offset bound *)

Lemma offset_within_boundb_iff s :
  offset_within_boundb s = true ↔ offset_within_bound s.
Proof. apply Qle_bool_iff. Qed.

Lemma maxOffset_nonneg v : 10 <= v → 0 <= Math.floor (v / 2) - 5.
Proof.
  intros H. unfold Math.floor.
  assert (5 <= v / 2) as H5 by (apply Qle_shift_div_l; [reflexivity | exact H]).
  apply Qfloor_resp_le in H5. change (Qfloor 5) with 5%Z in H5.
  rewrite Zle_Qle in H5. change (inject_Z 5) with 5 in H5. lra.
Qed.

Lemma clamp_within m x :
  0 <= m → Qabs (Math.max (- m) (Math.min m x)) <= m.
Proof.
  intros H. apply Qabs_Qle_condition. unfold Math.max, Math.min. split.
  - apply Q.le_max_l.
  - apply Q.max_lub; [lra | apply Q.le_min_l].
Qed.

Lemma settings_pauseOverlay w : settings (pauseOverlay w) = settings w.
Proof.
  unfold pauseOverlay, removeOverlay. simpl.
  destruct (isActive w); [|reflexivity].
  destruct (overlayEl w); reflexivity.
Qed.

(** The offset command clamps to the bound derived from the width. *)
Lemma adjustOffset_within_bound delta w :
  10 <= spotlightWidth (settings w) →
  offset_within_bound (settings (adjustOffset delta w)).
Proof.
  intros H. unfold adjustOffset. rewrite settings_save_with_settings.
  unfold offset_within_bound. cbn [horizontalOffset spotlightWidth set_horizontalOffset].
  apply clamp_within, maxOffset_nonneg, H.
Qed.

(** The width slider re-clamps the offset to the bound of the new width,
    and a re-clamped offset keeps its sign. *)
Lemma spotlightWidth_onChange_within_bound value w :
  10 <= value →
  let s := settings w in
  let s' := settings (PrivacyScreenSettingTab.spotlightWidth_onChange value w) in
  let maxOffset := Math.floor (value / 2) - 5 in
  spotlightWidth s' = value
  ∧ offset_within_bound s'
  ∧ (maxOffset < horizontalOffset s → horizontalOffset s' = maxOffset)
  ∧ (horizontalOffset s < - maxOffset → horizontalOffset s' = - maxOffset)
  ∧ (Qabs (horizontalOffset s) <= maxOffset → horizontalOffset s' = horizontalOffset s).
Proof.
  intros H. cbv zeta.
  unfold PrivacyScreenSettingTab.spotlightWidth_onChange, PrivacyScreenSettingTab.display.
  rewrite settings_pauseOverlay, settings_save_with_settings.
  pose proof (maxOffset_nonneg value H) as Hm.
  unfold offset_within_bound.
  cbn [horizontalOffset spotlightWidth set_spotlightWidth].
  set (m := Math.floor (value / 2) - 5) in *.
  set (off := horizontalOffset (settings w)).
  destruct (Qlt_le_dec m off) as [Hhi|Hhi];
    [|destruct (Qlt_le_dec off (- m)) as [Hlo|Hlo]];
    cbn [horizontalOffset spotlightWidth set_spotlightWidth set_horizontalOffset];
    fold off; rewrite ?Qabs_Qle_condition;
    repeat split; try reflexivity; intros;
    try reflexivity; unfold m, off in *; lra.
Qed.

(** C1.  The width commands do not re-clamp the offset.  On a first start,
    nineteen [increase-offset] commands bring the offset to 95, the bound
    for the default width 200; [decrease-width] then sets the width to
    190, whose bound is 90, and leaves the offset at 95. *)
Theorem decrease_width_leaves_offset_out_of_bound :
  let w := run (repeat (no_view, command increase_offset) 19) first_start in
  let w' := handle no_view (command decrease_width) w in
  reachable w'
  ∧ offset_within_bound (settings w)
  ∧ spotlightWidth (settings w') == 190
  ∧ Math.floor (spotlightWidth (settings w') / 2) - 5 == 90
  ∧ horizontalOffset (settings w') == 95
  ∧ ¬ offset_within_bound (settings w').
Proof.
  cbv zeta. split; [|split; [|split; [|split; [|split]]]].
  - apply reachable_handle, reachable_from_first_start.
  - apply offset_within_boundb_iff. vm_compute. reflexivity.
  - vm_compute. reflexivity.
  - vm_compute. reflexivity.
  - vm_compute. reflexivity.
  - intros H. apply offset_within_boundb_iff in H. vm_compute in H. discriminate.
Qed.

(** ** C3: pause and resume *)

(** One [pauseOverlay] followed by one [resumeOverlay] brings an active
    plugin back to active with a surface, and leaves an inactive one
    inactive without. *)
Lemma pause_resume_once app w :
  surface_owned w →
  let w' := resumeOverlay app (pauseOverlay w) in
  overlay_state w' = overlay_state w ∧ surface_owned w'.
Proof.
  intros H. cbv zeta. split.
  2: { apply surface_owned_resumeOverlay, surface_owned_pauseOverlay, H. }
  destruct H as [_ Hi].
  unfold overlay_state, pauseOverlay. cbn [isActive with_wasActiveBeforePause].
  destruct (isActive w) eqn:Ha.
  - unfold resumeOverlay. cbn [wasActiveBeforePause isActive with_isActive andb negb].
    pose proof (lifecycle_removeOverlay (with_wasActiveBeforePause true w)) as L.
    apply lifecycle_inj in L as (_ & _ & -> & _).
    cbn [wasActiveBeforePause with_wasActiveBeforePause andb negb isActive with_isActive].
    pose proof (lifecycle_createOverlay app
                  (with_isActive false (removeOverlay (with_wasActiveBeforePause true w)))) as L.
    apply lifecycle_inj in L as (Lo & _).
    cbn [overlayEl with_isActive]. rewrite Lo.
    f_equal. rewrite !bool_decide_eq_true_2; [reflexivity | | discriminate].
    apply Hi. reflexivity.
  - unfold resumeOverlay. cbn [wasActiveBeforePause isActive with_wasActiveBeforePause andb].
    rewrite Ha. reflexivity.
Qed.

(** C3.  A second [pauseOverlay] overwrites what the first remembered.
    From an active plugin with its surface, pause, pause, resume ends
    inactive and without a surface, while the settings still say
    [wasActive].  The settings tab does this: showing it pauses, moving
    the width slider shows it again, hiding it resumes. *)
Theorem pause_pause_resume_loses_active :
  let w := run [(no_view, ribbon)] first_start in
  let w' := resumeOverlay no_view (pauseOverlay (pauseOverlay w)) in
  let w'' := run [(no_view, tab_display); (no_view, change_spotlightWidth 210);
                  (no_view, tab_hide)] w in
  overlay_state w = (true, true)
  ∧ overlay_state (resumeOverlay no_view (pauseOverlay w)) = (true, true)
  ∧ overlay_state w' = (false, false)
  ∧ body w' = []
  ∧ wasActive (settings w') = true
  ∧ overlay_state w'' = (false, false).
Proof. cbv zeta. repeat split; vm_compute; reflexivity. Qed.

(** ** The mask on the overlay *)

Lemma rendered_mask_updateSpotlightPosition w el e x y :
  overlayEl w = Some el → nodes w !! el = Some e →
  rendered_mask (updateSpotlightPosition x y w)
  = Some (maskImage_of (settings w) x y).
Proof.
  intros Ho Hn.
  unfold rendered_mask, updateSpotlightPosition, updateMask.
  cbn [overlayEl with_current]. rewrite Ho.
  cbn [overlayEl nodes with_nodes with_current settings currentX currentY mbind option_bind].
  rewrite Ho. cbn [mbind option_bind].
  rewrite lookup_alter_eq, Hn. reflexivity.
Qed.


(** ** C2: the offset in mouse mode *)




(** ** C5: the circle mask *)

(** C5.  With the circle shape, a position update puts on the overlay the
    two-gradient mask whose inner ellipse has radii [(width/2, height/2)]
    and whose outer ellipse has radii [(width/2 + feather, height/2 +
    feather)], both at [(x + horizontalOffset, y)]. *)
Theorem circle_mask_geometry w el e x y :
  overlayEl w = Some el → nodes w !! el = Some e →
  spotlightShape (settings w) = circle →
  let s := settings w in
  rendered_mask (updateSpotlightPosition x y w)
  = Some (RadialGradients
            {| ellipse_rx := spotlightWidth s / 2;
               ellipse_ry := spotlightHeight s / 2;
               ellipse_x := x + horizontalOffset s;
               ellipse_y := y |}
            {| ellipse_rx := spotlightWidth s / 2 + featherEdge s;
               ellipse_ry := spotlightHeight s / 2 + featherEdge s;
               ellipse_x := x + horizontalOffset s;
               ellipse_y := y |}).
Proof.
  intros Ho Hn Hs. cbv zeta.
  rewrite (rendered_mask_updateSpotlightPosition w el e x y Ho Hn).
  unfold maskImage_of. rewrite Hs. reflexivity.
Qed.

Lemma circle_mask_geometry_witness :
  let w := run [(no_view, change_spotlightHeight 60); (no_view, ribbon)] first_start in
  rendered_mask (updateSpotlightPosition 300 120 w)
  = Some (RadialGradients
            {| ellipse_rx := 200 / 2; ellipse_ry := 60 / 2;
               ellipse_x := 300 + 0; ellipse_y := 120 |}
            {| ellipse_rx := 200 / 2 + 50; ellipse_ry := 60 / 2 + 50;
               ellipse_x := 300 + 0; ellipse_y := 120 |}).
Proof.
  intros w.
  apply (circle_mask_geometry w 0%nat
           {| classList := ["privacy-screen-overlay"];
              blur_intensity_px := Some 8;
              style_maskImage := Some (maskImage_of (settings w) 0 0) |}
           300 120).
  - vm_compute. reflexivity.
  - vm_compute. reflexivity.
  - vm_compute. reflexivity.
Defined.

(** ** C6: the square mask *)


(** *** Checks over the slider range *)

Lemma In_Zrange lo hi z : (lo ≤ z ≤ hi)%Z → In z (Binary64.Zrange lo hi).
Proof.
  intros Hz. unfold Binary64.Zrange. apply in_map_iff.
  exists (Z.to_nat (z - lo)). split; [lia|]. apply in_seq. lia.
Qed.

Lemma forallb_Zrange (P : Z → bool) lo hi :
  forallb P (Binary64.Zrange lo hi) = true →
  ∀ z, (lo ≤ z ≤ hi)%Z → P z = true.
Proof.
  intros H z Hz. rewrite forallb_forall in H. apply H, In_Zrange, Hz.
Qed.

Lemma forallb_Zrange2 (P : Z → Z → bool) lo1 hi1 lo2 hi2 :
  forallb (λ a, forallb (P a) (Binary64.Zrange lo2 hi2)) (Binary64.Zrange lo1 hi1)
  = true →
  ∀ a b, (lo1 ≤ a ≤ hi1)%Z → (lo2 ≤ b ≤ hi2)%Z → P a b = true.
Proof.
  intros H a b Ha Hb.
  apply (forallb_Zrange (P a) lo2 hi2); [|exact Hb].
  apply (forallb_Zrange (λ a, forallb (P a) (Binary64.Zrange lo2 hi2)) lo1 hi1 H a Ha).
Qed.

Lemma min_halves_checked W H :
  (24 ≤ W ≤ 600)%Z → (24 ≤ H ≤ 600)%Z → Binary64.min_halves_ok W H = true.
Proof.
  apply (forallb_Zrange2 Binary64.min_halves_ok 24 600 24 600).
  vm_compute. reflexivity.
Qed.

Lemma half_checked K : (24 ≤ K ≤ 600)%Z → Binary64.half_ok K = true.
Proof.
  apply (forallb_Zrange Binary64.half_ok 24 600). vm_compute. reflexivity.
Qed.

Lemma roundness_checked R K :
  (0 ≤ R ≤ 100)%Z → (24 ≤ K ≤ 600)%Z → Binary64.roundness_ok R K = true.
Proof.
  apply (forallb_Zrange2 Binary64.roundness_ok 0 100 24 600).
  vm_compute. reflexivity.
Qed.

Lemma outer_size_checked K F :
  (24 ≤ K ≤ 600)%Z → (10 ≤ F ≤ 100)%Z → Binary64.outer_size_ok K F = true.
Proof.
  apply (forallb_Zrange2 Binary64.outer_size_ok 24 600 10 100).
  vm_compute. reflexivity.
Qed.

Lemma value_is_has_value f q :
  Binary64.value_is f q = true → Binary64.has_value f q.
Proof.
  unfold Binary64.value_is, Binary64.has_value.
  destruct (Binary64.value f) as [v|]; [|discriminate].
  intros H. exists v. split; [reflexivity | apply Qeq_bool_iff, H].
Qed.

Lemma value_within_within eps f q :
  Binary64.value_within eps f q = true → Binary64.within eps f q.
Proof.
  unfold Binary64.value_within, Binary64.within.
  destruct (Binary64.value f) as [v|]; [|discriminate].
  intros H. exists v. split; [reflexivity | apply Qle_bool_iff, H].
Qed.

Lemma Qmin_inject_Z a b : Qmin (inject_Z a) (inject_Z b) == inject_Z (Z.min a b).
Proof.
  destruct (Z.min_spec a b) as [[Hlt ->] | [Hle ->]].
  - apply Q.min_l. rewrite <- Zle_Qle. lia.
  - apply Q.min_r. rewrite <- Zle_Qle. lia.
Qed.

(** C6, counterexample.  Width 34, height 44 and roundness 35 are values
    the sliders deliver.  The exact inner corner radius is
    [(35/100) * 17 = 5.95]; the code computes [(35 / 100) * 17] in
    binary64 and gets the number below the one nearest to 5.95, which
    [35 * 17 / 100] would have given. *)
Lemma square_mask_radius_is_rounded_twice : ¬ square_mask_as_claimed.
Proof.
  intros H.
  destruct (H 34%Z 44%Z 35%Z 50%Z 0%float 0%float 0%float 0%Q 0%Q 0%Q)
    as (outer & inner & Hm & (v & Hv & Hnear) & _);
    try lia; try reflexivity.
  vm_compute in Hm. injection Hm as _ <-.
  vm_compute in Hv. injection Hv as <-.
  specialize (Hnear (Binary64.of_Z 595 / 100)%float _ eq_refl).
  vm_compute in Hnear. apply Hnear. reflexivity.
Qed.

(** C6, amended.  With the square shape the numbers of the mask are the
    results of the code's operations in binary64, each rounded to
    nearest: the inner corner radius is
    [(squareRoundness / 100) * min(width / 2, height / 2)], the outer one
    the inner one plus [featherEdge]; the inner rect has size [width] by
    [height] and starts at [((x + horizontalOffset) - width / 2,
    y - height / 2)]; the outer rect starts [featherEdge] before it on
    both axes and has size [width + featherEdge * 2] by
    [height + featherEdge * 2].  For integer width and height in
    [24, 600], roundness in [0, 100] and feather in [10, 100],
    [min(width / 2, height / 2)] is [min(width, height) / 2] without
    rounding, the inner corner radius is within [2^-44] of the exact
    [(squareRoundness / 100) * min(width, height) / 2] and equal to
    [min(width, height) / 2] at roundness 100, and the sizes of both
    rects are exact. *)
Theorem square_mask_binary64 s cx cy :
  Binary64.spotlightShape s = square →
  let w := Binary64.spotlightWidth s in
  let h := Binary64.spotlightHeight s in
  let f := Binary64.featherEdge s in
  let r := Binary64.squareRoundness s in
  let x := (cx + Binary64.horizontalOffset s)%float in
  let roundness := ((r / 100) * Binary64.Math.min (w / 2) (h / 2))%float in
  Binary64.maskImage_of s cx cy
  = Binary64.SvgMask
      {| Binary64.rect_x := (x - w / 2 - f)%float;
         Binary64.rect_y := (cy - h / 2 - f)%float;
         Binary64.rect_width := (w + f * 2)%float;
         Binary64.rect_height := (h + f * 2)%float;
         Binary64.rect_rx := (roundness + f)%float |}
      {| Binary64.rect_x := (x - w / 2)%float;
         Binary64.rect_y := (cy - h / 2)%float;
         Binary64.rect_width := w;
         Binary64.rect_height := h;
         Binary64.rect_rx := roundness |}
  ∧ ∀ W H R F : Z,
      (24 ≤ W ≤ 600)%Z → (24 ≤ H ≤ 600)%Z → (0 ≤ R ≤ 100)%Z → (10 ≤ F ≤ 100)%Z →
      w = Binary64.of_Z W → h = Binary64.of_Z H →
      r = Binary64.of_Z R → f = Binary64.of_Z F →
      Binary64.Math.min (w / 2) (h / 2) = (Binary64.Math.min w h / 2)%float
      ∧ Binary64.has_value (Binary64.Math.min w h / 2)%float
          (Qmin (inject_Z W) (inject_Z H) / 2)
      ∧ Binary64.within (1 # 2 ^ 44) roundness
          ((inject_Z R / 100) * (Qmin (inject_Z W) (inject_Z H) / 2))
      ∧ (R = 100%Z → roundness = (Binary64.Math.min w h / 2)%float)
      ∧ Binary64.has_value w (inject_Z W)
      ∧ Binary64.has_value h (inject_Z H)
      ∧ Binary64.has_value (w + f * 2)%float (inject_Z W + 2 * inject_Z F)
      ∧ Binary64.has_value (h + f * 2)%float (inject_Z H + 2 * inject_Z F).
Proof.
  intros Hs. cbv zeta. split.
  { unfold Binary64.maskImage_of, Binary64.createSquareMask. rewrite Hs. reflexivity. }
  intros W H R F HW HH HR HF -> -> -> ->.
  pose proof (min_halves_checked W H HW HH) as Hmin.
  apply andb_prop in Hmin as [Hhalves Hmin].
  apply FloatAxioms.Leibniz.eqb_spec in Hhalves, Hmin.
  assert (24 ≤ Z.min W H ≤ 600)%Z as HK by lia.
  pose proof (half_checked (Z.min W H) HK) as HhK.
  apply andb_prop in HhK as [HhK H100]. apply andb_prop in HhK as [_ HhK].
  apply FloatAxioms.Leibniz.eqb_spec in H100.
  pose proof (half_checked W HW) as HhW.
  apply andb_prop in HhW as [HhW _]. apply andb_prop in HhW as [HvW _].
  pose proof (half_checked H HH) as HhH.
  apply andb_prop in HhH as [HhH _]. apply andb_prop in HhH as [HvH _].
  rewrite Hhalves, Hmin.
  split; [reflexivity|].
  split.
  { destruct (value_is_has_value _ _ HhK) as (v & Hv & Hq).
    exists v. split; [exact Hv|]. rewrite Hq, Qmin_inject_Z. reflexivity. }
  split.
  { destruct (value_within_within _ _ _ (roundness_checked R _ HR HK))
      as (v & Hv & Hq).
    exists v. split; [exact Hv|]. rewrite Qmin_inject_Z. exact Hq. }
  split; [intros ->; exact H100|].
  split; [apply value_is_has_value, HvW|].
  split; [apply value_is_has_value, HvH|].
  split; apply value_is_has_value, outer_size_checked; assumption.
Qed.

Lemma square_mask_binary64_witness :
  let s := {| Binary64.spotlightWidth := 34; Binary64.spotlightHeight := 44;
              Binary64.horizontalOffset := 5; Binary64.featherEdge := 50;
              Binary64.spotlightShape := square;
              Binary64.squareRoundness := 35 |}%float in
  let cx := 312.5%float in
  let cy := 120%float in
  let w := Binary64.spotlightWidth s in
  let h := Binary64.spotlightHeight s in
  let f := Binary64.featherEdge s in
  let r := Binary64.squareRoundness s in
  let x := (cx + Binary64.horizontalOffset s)%float in
  let roundness := ((r / 100) * Binary64.Math.min (w / 2) (h / 2))%float in
  Binary64.maskImage_of s cx cy
  = Binary64.SvgMask
      {| Binary64.rect_x := (x - w / 2 - f)%float;
         Binary64.rect_y := (cy - h / 2 - f)%float;
         Binary64.rect_width := (w + f * 2)%float;
         Binary64.rect_height := (h + f * 2)%float;
         Binary64.rect_rx := (roundness + f)%float |}
      {| Binary64.rect_x := (x - w / 2)%float;
         Binary64.rect_y := (cy - h / 2)%float;
         Binary64.rect_width := w;
         Binary64.rect_height := h;
         Binary64.rect_rx := roundness |}
  ∧ ∀ W H R F : Z,
      (24 ≤ W ≤ 600)%Z → (24 ≤ H ≤ 600)%Z → (0 ≤ R ≤ 100)%Z → (10 ≤ F ≤ 100)%Z →
      w = Binary64.of_Z W → h = Binary64.of_Z H →
      r = Binary64.of_Z R → f = Binary64.of_Z F →
      Binary64.Math.min (w / 2) (h / 2) = (Binary64.Math.min w h / 2)%float
      ∧ Binary64.has_value (Binary64.Math.min w h / 2)%float
          (Qmin (inject_Z W) (inject_Z H) / 2)
      ∧ Binary64.within (1 # 2 ^ 44) roundness
          ((inject_Z R / 100) * (Qmin (inject_Z W) (inject_Z H) / 2))
      ∧ (R = 100%Z → roundness = (Binary64.Math.min w h / 2)%float)
      ∧ Binary64.has_value w (inject_Z W)
      ∧ Binary64.has_value h (inject_Z H)
      ∧ Binary64.has_value (w + f * 2)%float (inject_Z W + 2 * inject_Z F)
      ∧ Binary64.has_value (h + f * 2)%float (inject_Z H + 2 * inject_Z F).
Proof.
  intros s cx cy. apply (square_mask_binary64 s cx cy). reflexivity.
Defined.

(** What the code emits at these settings: inner corner radius
    5.949999999999999, outer corner radius 55.95. *)
Example square_mask_emitted :
  Binary64.maskImage_of
    {| Binary64.spotlightWidth := 34; Binary64.spotlightHeight := 44;
       Binary64.horizontalOffset := 0; Binary64.featherEdge := 50;
       Binary64.spotlightShape := square; Binary64.squareRoundness := 35 |}%float
    0%float 0%float
  = Binary64.SvgMask
      {| Binary64.rect_x := (-67)%float; Binary64.rect_y := (-72)%float;
         Binary64.rect_width := 134%float; Binary64.rect_height := 144%float;
         Binary64.rect_rx := 0x1.bf9999999999ap+5%float |}
      {| Binary64.rect_x := (-17)%float; Binary64.rect_y := (-22)%float;
         Binary64.rect_width := 34%float; Binary64.rect_height := 44%float;
         Binary64.rect_rx := 0x1.7ccccccccccccp+2%float |}.
Proof. vm_compute. reflexivity. Qed.

(** The midpoint of the inner rect is the target only up to rounding:
    with the target at 0.1 and width 34 the left edge is rounded, and
    adding the half width back gives 0.10000000000000142. *)
Example square_mask_midpoint_rounded :
  let cx := 0x1.999999999999ap-4%float in
  let w := 34%float in
  ((cx - w / 2) + w / 2)%float = 0x1.9999999999a00p-4%float
  ∧ ((cx - w / 2) + w / 2)%float ≠ cx.
Proof.
  cbv zeta. split; [vm_compute; reflexivity|].
  intros H. apply FloatAxioms.Leibniz.eqb_spec in H. vm_compute in H. discriminate.
Qed.

(** * Scenarios *)

(** Start inactive; toggle: active, one surface, mask computed at the
    initial target (0, 0), because [createOverlay] runs [trackCursor]
    before [isActive] is raised, even with a caret on screen. *)
Example scenario_toggle :
  let w := handle (caret_at (Build_Rect 40 41 100 120)) ribbon first_start in
  overlay_state w = (true, true)
  ∧ body w = [0%nat]
  ∧ (currentX w, currentY w) = (0, 0)
  ∧ rendered_mask w = Some (maskImage_of DEFAULT_SETTINGS 0 0)
  ∧ wasActive (settings w) = true
  ∧ (dataJson w ≫= (.!! "wasActive")) = Some (JBoolean true).
Proof. cbv zeta. repeat apply conj; vm_compute; reflexivity. Qed.

(** Then a key is released with the caret box (40, 100)-(41, 120): the
    mask moves to the vertical middle of the box. *)
Example scenario_keyup :
  let app := caret_at (Build_Rect 40 41 100 120) in
  let w := run [(app, ribbon); (app, keyup)] first_start in
  currentX w == 40 ∧ currentY w == 110
  ∧ rendered_mask w = Some (maskImage_of (settings w) (currentX w) (currentY w)).
Proof. cbv zeta. repeat apply conj; vm_compute; reflexivity. Qed.

(** Pause removes the surface and remembers; resume creates a new one
    with the mask at the last target. *)
Example scenario_pause_resume :
  let app := caret_at (Build_Rect 40 41 100 120) in
  let w := run [(app, ribbon); (app, keyup)] first_start in
  let paused := pauseOverlay w in
  let resumed := resumeOverlay app paused in
  overlay_state paused = (false, false)
  ∧ body paused = []
  ∧ wasActiveBeforePause paused = true
  ∧ overlay_state resumed = (true, true)
  ∧ body resumed = [1%nat]
  ∧ rendered_mask resumed = rendered_mask w.
Proof. cbv zeta. repeat apply conj; vm_compute; reflexivity. Qed.

(** Width 100 with offset 40 (bound 45): the width slider set to 64
    (bound 27) brings the offset to 27; the same on the other side. *)
Example scenario_slider_clamps :
  let at_offset off :=
    with_settings (set_horizontalOffset off (set_spotlightWidth 100 DEFAULT_SETTINGS))
      first_start in
  let after off :=
    settings (PrivacyScreenSettingTab.spotlightWidth_onChange 64 (at_offset off)) in
  horizontalOffset (after 40) == 27
  ∧ horizontalOffset (after (-40)) == -27
  ∧ horizontalOffset (after 20) == 20.
Proof. cbv zeta. repeat apply conj; vm_compute; reflexivity. Qed.

(** The commands clamp at their limits. *)
Example scenario_command_limits :
  let w := run (repeat (no_view, command increase_width) 50
                ++ repeat (no_view, command decrease_blur) 10
                ++ repeat (no_view, command decrease_offset) 80) first_start in
  spotlightWidth (settings w) == 600
  ∧ blurIntensity (settings w) == 2
  ∧ horizontalOffset (settings w) == -295.
Proof. cbv zeta. repeat apply conj; vm_compute; reflexivity. Qed.

(** The width command on the way down from 100 to 60 keeps the offset 40,
    which the bound for 60 (25) no longer admits. *)
Example scenario_width_command_keeps_offset :
  let w0 :=
    with_settings (set_horizontalOffset 40 (set_spotlightWidth 100 DEFAULT_SETTINGS))
      first_start in
  let w := run (repeat (no_view, command decrease_width) 4) w0 in
  spotlightWidth (settings w) == 60
  ∧ horizontalOffset (settings w) == 40
  ∧ offset_within_boundb (settings w0) = true
  ∧ offset_within_boundb (settings w) = false.
Proof. cbv zeta. repeat apply conj; vm_compute; reflexivity. Qed.

(** * Beyond the claims *)

(** ** The settings object and the typed settings *)

Lemma declared_fields_None s k :
  declared_fields s !! k = None ↔ k ∉ declared_keys.
Proof. unfold declared_fields. rewrite <- not_elem_of_list_to_map. reflexivity. Qed.

Lemma DEFAULT_SETTINGS_object_None k :
  DEFAULT_SETTINGS_object !! k = None ↔ k ∉ declared_keys.
Proof.
  unfold DEFAULT_SETTINGS_object, to_object.
  change (otherKeys DEFAULT_SETTINGS) with (∅ : gmap string JSValue).
  rewrite (right_id_L ∅ (∪)). apply declared_fields_None.
Qed.

Lemma declared_keys_cases (P : string → Prop) :
  P "spotlightWidth" → P "spotlightHeight" → P "horizontalOffset" →
  P "blurIntensity" → P "featherEdge" → P "spotlightShape" →
  P "squareRoundness" → P "previewCursorBlink" → P "wasActive" →
  P "trackingMode" →
  ∀ k, k ∈ declared_keys → P k.
Proof.
  intros. unfold declared_keys in *.
  repeat (match goal with
          | H : _ ∈ _ :: _ |- _ => apply elem_of_cons in H as [-> | H]
          | H : _ ∈ [] |- _ => apply elem_of_nil in H; contradiction
          end; [assumption|]).
  match goal with H : _ ∈ [] |- _ => apply elem_of_nil in H; contradiction end.
Qed.

Lemma get_shape_Some o k v : get_shape o k = Some v → o !! k = Some (shape_value v).
Proof.
  unfold get_shape. destruct (o !! k) as [[| s | |]|]; try discriminate.
  destruct (String.eqb_spec s "circle") as [->|_]; [intros [= <-]; reflexivity|].
  destruct (String.eqb_spec s "square") as [->|_]; [intros [= <-]; reflexivity|].
  discriminate.
Qed.

Lemma get_mode_Some o k v : get_mode o k = Some v → o !! k = Some (mode_value v).
Proof.
  unfold get_mode. destruct (o !! k) as [[| s | |]|]; try discriminate.
  destruct (String.eqb_spec s "cursor") as [->|_]; [intros [= <-]; reflexivity|].
  destruct (String.eqb_spec s "mouse") as [->|_]; [intros [= <-]; reflexivity|].
  discriminate.
Qed.

Lemma get_number_Some o k v : get_number o k = Some v → o !! k = Some (JNumber v).
Proof.
  unfold get_number. destruct (o !! k) as [[| | |]|]; try discriminate.
  intros [= <-]. reflexivity.
Qed.

Lemma get_boolean_Some o k v : get_boolean o k = Some v → o !! k = Some (JBoolean v).
Proof.
  unfold get_boolean. destruct (o !! k) as [[| | |]|]; try discriminate.
  intros [= <-]. reflexivity.
Qed.

Lemma get_shape_value o k v : o !! k = Some (shape_value v) → get_shape o k = Some v.
Proof. unfold get_shape. intros ->. destruct v; reflexivity. Qed.

Lemma get_mode_value o k v : o !! k = Some (mode_value v) → get_mode o k = Some v.
Proof. unfold get_mode. intros ->. destruct v; reflexivity. Qed.

Lemma get_number_value o k v : o !! k = Some (JNumber v) → get_number o k = Some v.
Proof. unfold get_number. intros ->. reflexivity. Qed.

Lemma get_boolean_value o k v : o !! k = Some (JBoolean v) → get_boolean o k = Some v.
Proof. unfold get_boolean. intros ->. reflexivity. Qed.

(** What [as_settings] says about the object it read. *)
Lemma as_settings_Some o s :
  as_settings o = Some s →
  (∀ k, k ∈ declared_keys → o !! k = declared_fields s !! k)
  ∧ otherKeys s = filter (λ kv, DEFAULT_SETTINGS_object !! kv.1 = None) o.
Proof.
  unfold as_settings. intros H.
  destruct (get_number o "spotlightWidth") as [w|] eqn:E1; [|discriminate].
  destruct (get_number o "spotlightHeight") as [h|] eqn:E2; [|discriminate].
  destruct (get_number o "horizontalOffset") as [off|] eqn:E3; [|discriminate].
  destruct (get_number o "blurIntensity") as [blur|] eqn:E4; [|discriminate].
  destruct (get_number o "featherEdge") as [feather|] eqn:E5; [|discriminate].
  destruct (get_shape o "spotlightShape") as [shape|] eqn:E6; [|discriminate].
  destruct (get_number o "squareRoundness") as [round|] eqn:E7; [|discriminate].
  destruct (get_boolean o "previewCursorBlink") as [blink|] eqn:E8; [|discriminate].
  destruct (get_boolean o "wasActive") as [was|] eqn:E9; [|discriminate].
  destruct (get_mode o "trackingMode") as [mode|] eqn:E10; [|discriminate].
  cbn [mbind option_bind] in H. injection H as <-.
  split; [|reflexivity].
  apply declared_keys_cases;
    first [ rewrite (get_number_Some _ _ _ E1)
          | rewrite (get_number_Some _ _ _ E2)
          | rewrite (get_number_Some _ _ _ E3)
          | rewrite (get_number_Some _ _ _ E4)
          | rewrite (get_number_Some _ _ _ E5)
          | rewrite (get_shape_Some _ _ _ E6)
          | rewrite (get_number_Some _ _ _ E7)
          | rewrite (get_boolean_Some _ _ _ E8)
          | rewrite (get_boolean_Some _ _ _ E9)
          | rewrite (get_mode_Some _ _ _ E10) ];
    reflexivity.
Qed.

Lemma as_settings_undeclared_only o s :
  as_settings o = Some s → undeclared_only (otherKeys s).
Proof.
  intros H. apply as_settings_Some in H as [_ ->].
  intros k Hk. apply map_lookup_filter_None. right. intros v _. cbn.
  rewrite DEFAULT_SETTINGS_object_None. tauto.
Qed.

Lemma to_object_declared s k :
  k ∈ declared_keys → to_object s !! k = declared_fields s !! k.
Proof.
  intros Hk. unfold to_object.
  destruct (declared_fields s !! k) as [v|] eqn:E.
  - apply lookup_union_Some_l. exact E.
  - apply declared_fields_None in E. contradiction.
Qed.

Lemma to_object_undeclared s k :
  k ∉ declared_keys → to_object s !! k = otherKeys s !! k.
Proof.
  intros Hk. unfold to_object. apply lookup_union_r, declared_fields_None, Hk.
Qed.

Lemma proto_undeclared : "__proto__" ∉ declared_keys.
Proof.
  intros Hin. unfold declared_keys in Hin.
  repeat (apply elem_of_cons in Hin as [Hin | Hin]; [discriminate Hin|]).
  apply elem_of_nil in Hin. exact Hin.
Qed.

Lemma loadSettings_no_proto data : loadSettings data !! "__proto__" = None.
Proof.
  rewrite loadSettings_unfold. destruct data as [o|]; [|reflexivity].
  apply lookup_union_None. split; [apply lookup_delete_eq | reflexivity].
Qed.

Lemma as_settings_no_proto data s :
  as_settings (loadSettings data) = Some s → otherKeys s !! "__proto__" = None.
Proof.
  intros H. apply as_settings_Some in H as [_ ->].
  apply map_lookup_filter_None. left. apply loadSettings_no_proto.
Qed.

(** The object of a settings value has every declared key, so the
    defaults add nothing to it; it is loaded whole unless it owns
    [__proto__]. *)
Lemma loadSettings_to_object s :
  otherKeys s !! "__proto__" = None →
  loadSettings (Some (to_object s)) = to_object s.
Proof.
  intros Hp. rewrite loadSettings_unfold.
  rewrite delete_id
    by (rewrite (to_object_undeclared s _ proto_undeclared); exact Hp).
  apply map_eq. intros k.
  destruct (to_object s !! k) as [v|] eqn:E.
  - apply lookup_union_Some_l. exact E.
  - rewrite lookup_union_r by exact E.
    apply DEFAULT_SETTINGS_object_None. intros Hk.
    rewrite (to_object_declared s k Hk) in E.
    apply declared_fields_None in E. contradiction.
Qed.

Lemma filter_undeclared_to_object s :
  undeclared_only (otherKeys s) →
  filter (λ kv : string * JSValue, DEFAULT_SETTINGS_object !! kv.1 = None) (to_object s)
  = otherKeys s.
Proof.
  intros Hu. apply map_eq. intros k. apply option_eq. intros v.
  rewrite map_lookup_filter_Some. cbn [fst].
  rewrite DEFAULT_SETTINGS_object_None.
  destruct (decide (k ∈ declared_keys)) as [Hk|Hk].
  - rewrite (Hu k Hk). split; [intros [_ ?]; contradiction | discriminate].
  - rewrite (to_object_undeclared s k Hk). tauto.
Qed.

Lemma to_object_read o s :
  as_settings o = Some s → to_object s = o.
Proof.
  intros H. destruct (as_settings_Some o s H) as [Hd Ho].
  apply map_eq. intros k.
  destruct (decide (k ∈ declared_keys)) as [Hk|Hk].
  - rewrite (to_object_declared s k Hk). symmetry. apply Hd, Hk.
  - rewrite (to_object_undeclared s k Hk), Ho.
    apply option_eq. intros v. rewrite map_lookup_filter_Some. cbn [fst].
    rewrite DEFAULT_SETTINGS_object_None. tauto.
Qed.


Lemma read_back_object s :
  undeclared_only (otherKeys s) → as_settings (to_object s) = Some s.
Proof.
  intros Hu. unfold as_settings.
  rewrite (get_number_value _ "spotlightWidth" (spotlightWidth s))
    by (rewrite to_object_declared by set_solver; reflexivity).
  rewrite (get_number_value _ "spotlightHeight" (spotlightHeight s))
    by (rewrite to_object_declared by set_solver; reflexivity).
  rewrite (get_number_value _ "horizontalOffset" (horizontalOffset s))
    by (rewrite to_object_declared by set_solver; reflexivity).
  rewrite (get_number_value _ "blurIntensity" (blurIntensity s))
    by (rewrite to_object_declared by set_solver; reflexivity).
  rewrite (get_number_value _ "featherEdge" (featherEdge s))
    by (rewrite to_object_declared by set_solver; reflexivity).
  rewrite (get_shape_value _ "spotlightShape" (spotlightShape s))
    by (rewrite to_object_declared by set_solver; reflexivity).
  rewrite (get_number_value _ "squareRoundness" (squareRoundness s))
    by (rewrite to_object_declared by set_solver; reflexivity).
  rewrite (get_boolean_value _ "previewCursorBlink" (previewCursorBlink s))
    by (rewrite to_object_declared by set_solver; reflexivity).
  rewrite (get_boolean_value _ "wasActive" (wasActive s))
    by (rewrite to_object_declared by set_solver; reflexivity).
  rewrite (get_mode_value _ "trackingMode" (trackingMode s))
    by (rewrite to_object_declared by set_solver; reflexivity).
  cbn [mbind option_bind].
  rewrite (filter_undeclared_to_object s Hu).
  destruct s; reflexivity.
Qed.

Lemma read_back_saved s :
  undeclared_only (otherKeys s) →
  otherKeys s !! "__proto__" = None →
  as_settings (loadSettings (Some (to_object s))) = Some s.
Proof.
  intros Hu Hp. rewrite loadSettings_to_object by exact Hp.
  apply read_back_object, Hu.
Qed.

(** X2.  Saving and loading again gives the same settings: for a settings
    value whose extra properties do not shadow a declared name and do not
    include [__proto__] (an object built by [Object.assign] never owns
    it), the object [saveData] receives is read back, directly or through
    [loadSettings], as that value. *)
Theorem as_settings_to_object s :
  undeclared_only (otherKeys s) →
  otherKeys s !! "__proto__" = None →
  as_settings (to_object s) = Some s
  ∧ as_settings (loadSettings (Some (to_object s))) = Some s.
Proof.
  intros Hu Hp. split; [apply read_back_object | apply read_back_saved]; assumption.
Qed.

Lemma as_settings_to_object_witness :
  let s := set_horizontalOffset 15
             (set_spotlightShape square
                (Build_PrivacyScreenSettings 200 100 0 8 50 circle 20 true false
                   cursor {[ "spotlightRadius" := JNumber 100 ]})) in
  as_settings (to_object s) = Some s
  ∧ as_settings (loadSettings (Some (to_object s))) = Some s.
Proof.
  intros s. apply (as_settings_to_object s).
  - unfold undeclared_only.
    apply (declared_keys_cases (λ k, otherKeys s !! k = None)); reflexivity.
  - reflexivity.
Defined.

(** ** What is in memory and what is on disk *)

Lemma store_updateMask w : store (updateMask w) = store w.
Proof.
  unfold store, updateMask.
  destruct (overlayEl w) eqn:E; simpl; rewrite ?E; reflexivity.
Qed.

Lemma store_applySettings w : store (applySettings w) = store w.
Proof.
  unfold applySettings.
  destruct (overlayEl w) eqn:E; [|reflexivity].
  rewrite store_updateMask. reflexivity.
Qed.

Lemma store_trackCursor app w : store (trackCursor app w) = store w.
Proof.
  unfold trackCursor.
  destruct (negb (isActive w)); [reflexivity|].
  destruct (getActiveViewOfType app) as [view|]; [|reflexivity].
  destruct (editor_cm view) as [ev|]; [|reflexivity].
  destruct (coordsAtPos ev (selection_main_head ev)); [|reflexivity].
  unfold updateSpotlightPosition. rewrite store_updateMask. reflexivity.
Qed.

Lemma store_on_mousemove x y w : store (on_mousemove x y w) = store w.
Proof.
  unfold on_mousemove.
  destruct (isActive w), (trackingMode (settings w)); try reflexivity.
  unfold updateSpotlightPosition. rewrite store_updateMask. reflexivity.
Qed.

Lemma store_createOverlay app w : store (createOverlay app w) = store w.
Proof.
  unfold createOverlay. rewrite store_trackCursor, store_applySettings. reflexivity.
Qed.

Lemma store_removeOverlay w : store (removeOverlay w) = store w.
Proof. unfold removeOverlay. destruct (overlayEl w); reflexivity. Qed.

Lemma store_pauseOverlay w : store (pauseOverlay w) = store w.
Proof.
  unfold pauseOverlay. cbn [isActive with_wasActiveBeforePause].
  destruct (isActive w); [|reflexivity].
  change (store (removeOverlay (with_wasActiveBeforePause true w)) = store w).
  rewrite store_removeOverlay. reflexivity.
Qed.

Lemma store_resumeOverlay app w : store (resumeOverlay app w) = store w.
Proof.
  unfold resumeOverlay.
  destruct (wasActiveBeforePause w && negb (isActive w)); [|reflexivity].
  change (store (createOverlay app w) = store w). apply store_createOverlay.
Qed.

Lemma store_save_with_settings s w :
  store (saveSettings (with_settings s w)) = (s, Some (to_object s)).
Proof. unfold saveSettings. rewrite store_applySettings. reflexivity. Qed.

Lemma store_inj w s d : store w = (s, d) → settings w = s ∧ dataJson w = d.
Proof. unfold store. intros [= -> ->]. auto. Qed.

Lemma settings_store w w' : store w' = store w → settings w' = settings w.
Proof. intros H. apply store_inj in H as [H _]. exact H. Qed.

(** What [toggle] leaves in memory and on disk. *)
Lemma store_toggle app w :
  let s := set_wasActive (negb (isActive w)) (settings w) in
  store (toggle app w) = (s, Some (to_object s)).
Proof.
  cbv zeta. unfold toggle. rewrite store_save_with_settings.
  cbn [settings isActive with_isActive].
  destruct (isActive w) eqn:Ha.
  - pose proof (lifecycle_removeOverlay w) as L.
    apply lifecycle_inj in L as (_ & -> & _).
    rewrite (settings_store _ _ (store_removeOverlay w)), Ha. reflexivity.
  - pose proof (lifecycle_createOverlay app w) as L.
    apply lifecycle_inj in L as (_ & -> & _).
    rewrite (settings_store _ _ (store_createOverlay app w)), Ha. reflexivity.
Qed.

(** Every handler either leaves the settings and the disk alone, or
    installs settings with the same extra properties (none, for a reset)
    and saves exactly them. *)
Lemma store_handle app e w :
  store (handle app e w) = store w
  ∨ ∃ s, (otherKeys s = otherKeys (settings w) ∨ otherKeys s = ∅)
         ∧ store (handle app e w) = (s, Some (to_object s)).
Proof.
  assert (∀ s, otherKeys s = otherKeys (settings w) ∨ otherKeys s = ∅ →
               ∃ s', (otherKeys s' = otherKeys (settings w) ∨ otherKeys s' = ∅)
                     ∧ store (saveSettings (with_settings s w))
                       = (s', Some (to_object s'))) as Hsave.
  { intros s Hs. exists s. split; [exact Hs | apply store_save_with_settings]. }
  destruct e; cbn [handle];
    unfold PrivacyScreenSettingTab.hide,
      PrivacyScreenSettingTab.spotlightWidth_onChange,
      PrivacyScreenSettingTab.horizontalOffset_onChange,
      PrivacyScreenSettingTab.spotlightHeight_onChange,
      PrivacyScreenSettingTab.blurIntensity_onChange,
      PrivacyScreenSettingTab.featherEdge_onChange,
      PrivacyScreenSettingTab.spotlightShape_onChange,
      PrivacyScreenSettingTab.squareRoundness_onChange,
      PrivacyScreenSettingTab.trackingMode_onChange,
      PrivacyScreenSettingTab.previewCursorBlink_onChange,
      PrivacyScreenSettingTab.display;
    rewrite ?store_pauseOverlay.
  - right. eexists. split; [|apply store_toggle]. left. reflexivity.
  - destruct c; cbn [runCommand];
      [ right; eexists; split; [|apply store_toggle]; left; reflexivity | .. ];
      unfold adjustSetting, adjustOffset, resetSettings, toggleTrackingMode;
      right; apply Hsave; first [ right; reflexivity | left; reflexivity ].
  - left. apply store_trackCursor.
  - left. apply store_trackCursor.
  - left. apply store_trackCursor.
  - left. apply store_on_mousemove.
  - left. reflexivity.
  - left. apply store_resumeOverlay.
  - right. apply Hsave. left.
    destruct (Qlt_le_dec _ _); [reflexivity|].
    destruct (Qlt_le_dec _ _); reflexivity.
  - right. apply Hsave. left. reflexivity.
  - right. apply Hsave. left. reflexivity.
  - right. apply Hsave. left. reflexivity.
  - right. apply Hsave. left. reflexivity.
  - right. apply Hsave. left. reflexivity.
  - right. apply Hsave. left. reflexivity.
  - right. apply Hsave. left. reflexivity.
  - right. apply Hsave. left. reflexivity.
  - left. apply store_applySettings.
Qed.

Lemma store_onload app data w :
  onload app data = Some w →
  as_settings (loadSettings data) = Some (settings w) ∧ dataJson w = data.
Proof.
  unfold onload. intros H.
  destruct (as_settings (loadSettings data)) as [s|]; [|discriminate].
  cbn [mbind option_bind] in H. injection H as <-.
  cbn [settings new_plugin].
  destruct (wasActive s); [|split; reflexivity].
  change (as_settings (loadSettings data) = Some s) with
    (as_settings (loadSettings data) = Some (settings (new_plugin s data))).
  pose proof (store_createOverlay app (new_plugin s data)) as Hs.
  apply store_inj in Hs as [Hs Hd].
  cbn [settings dataJson with_isActive]. rewrite Hs, Hd. split; reflexivity.
Qed.

Lemma persisted_in_sync_reachable w : reachable w → persisted_in_sync w.
Proof.
  induction 1 as [app data w H | app e w _ IH]; unfold persisted_in_sync in *.
  - apply store_onload in H as [H ->]. exact H.
  - destruct (store_handle app e w) as [Hs | (s & Hk & Hs)];
      apply store_inj in Hs as [-> ->]; [exact IH|].
    destruct Hk as [Hk | Hk].
    + apply read_back_saved; rewrite Hk.
      * eapply as_settings_undeclared_only, IH.
      * eapply as_settings_no_proto, IH.
    + apply read_back_saved; rewrite Hk.
      * intros k _. apply lookup_empty.
      * apply lookup_empty.
Qed.

(** ** The stored target point *)

Lemma position_updateMask w : position (updateMask w) = position w.
Proof.
  unfold position, updateMask.
  destruct (overlayEl w) eqn:E; simpl; rewrite ?E; reflexivity.
Qed.

Lemma position_applySettings w : position (applySettings w) = position w.
Proof.
  unfold applySettings.
  destruct (overlayEl w) eqn:E; [|reflexivity].
  rewrite position_updateMask. reflexivity.
Qed.

Lemma position_save_with_settings s w :
  position (saveSettings (with_settings s w)) = position w.
Proof. unfold saveSettings. rewrite position_applySettings. reflexivity. Qed.

Lemma trackCursor_inactive app w : isActive w = false → trackCursor app w = w.
Proof. unfold trackCursor. intros ->. reflexivity. Qed.

(** [createOverlay] on an inactive plugin: its [trackCursor] returns at
    the first test. *)
Lemma position_createOverlay app w :
  isActive w = false → position (createOverlay app w) = position w.
Proof.
  intros Ha. unfold createOverlay.
  rewrite trackCursor_inactive.
  - rewrite position_applySettings. reflexivity.
  - pose proof (lifecycle_applySettings
                  (Build_World (settings w) (Some (nextNode w)) (isActive w)
                     (wasActiveBeforePause w) (currentX w) (currentY w)
                     (<[nextNode w:={| classList := ["privacy-screen-overlay"];
                                       blur_intensity_px := None;
                                       style_maskImage := None |}]> (nodes w))
                     (body w ++ [nextNode w]) (S (nextNode w)) (dataJson w))) as L.
    apply lifecycle_inj in L as (_ & L & _). rewrite L. exact Ha.
Qed.

Lemma position_removeOverlay w : position (removeOverlay w) = position w.
Proof. unfold removeOverlay. destruct (overlayEl w); reflexivity. Qed.

Lemma position_toggle app w : position (toggle app w) = position w.
Proof.
  unfold toggle. rewrite position_save_with_settings.
  change (position (if isActive w then removeOverlay w else createOverlay app w)
          = position w).
  destruct (isActive w) eqn:Ha;
    [apply position_removeOverlay | apply position_createOverlay, Ha].
Qed.

Lemma position_pauseOverlay w : position (pauseOverlay w) = position w.
Proof.
  unfold pauseOverlay. cbn [isActive with_wasActiveBeforePause].
  destruct (isActive w); [|reflexivity].
  change (position (removeOverlay (with_wasActiveBeforePause true w)) = position w).
  rewrite position_removeOverlay. reflexivity.
Qed.

Lemma position_resumeOverlay app w : position (resumeOverlay app w) = position w.
Proof.
  unfold resumeOverlay.
  destruct (wasActiveBeforePause w); cbn [andb]; [|reflexivity].
  destruct (isActive w) eqn:Ha; cbn [negb]; [reflexivity|].
  change (position (createOverlay app w) = position w).
  apply position_createOverlay, Ha.
Qed.

(** X3.  Only the tracking listeners move the target point.  Every other
    handler leaves [currentX] and [currentY] as they were, whatever the
    editor shows: switching the overlay on or resuming it does not look
    up the caret, because [createOverlay] calls [trackCursor] while
    [isActive] is still false. *)
Theorem position_moves_only_on_tracking app e w :
  is_tracking e = false →
  currentX (handle app e w) = currentX w ∧ currentY (handle app e w) = currentY w.
Proof.
  intros He.
  assert (position (handle app e w) = position w) as Hp;
    [|unfold position in Hp; injection Hp; auto].
  destruct e; try discriminate He; cbn [handle];
    unfold PrivacyScreenSettingTab.hide,
      PrivacyScreenSettingTab.spotlightWidth_onChange,
      PrivacyScreenSettingTab.horizontalOffset_onChange,
      PrivacyScreenSettingTab.spotlightHeight_onChange,
      PrivacyScreenSettingTab.blurIntensity_onChange,
      PrivacyScreenSettingTab.featherEdge_onChange,
      PrivacyScreenSettingTab.spotlightShape_onChange,
      PrivacyScreenSettingTab.squareRoundness_onChange,
      PrivacyScreenSettingTab.trackingMode_onChange,
      PrivacyScreenSettingTab.previewCursorBlink_onChange,
      PrivacyScreenSettingTab.display;
    rewrite ?position_pauseOverlay.
  - apply position_toggle.
  - destruct c; cbn [runCommand]; [apply position_toggle | ..];
      unfold adjustSetting, adjustOffset, resetSettings, toggleTrackingMode;
      apply position_save_with_settings.
  - reflexivity.
  - apply position_resumeOverlay.
  - apply position_save_with_settings.
  - apply position_save_with_settings.
  - apply position_save_with_settings.
  - apply position_save_with_settings.
  - apply position_save_with_settings.
  - apply position_save_with_settings.
  - apply position_save_with_settings.
  - apply position_save_with_settings.
  - apply position_save_with_settings.
  - apply position_applySettings.
Qed.

Lemma position_moves_only_on_tracking_witness :
  let app := caret_at (Build_Rect 40 41 100 120) in
  let w := run [(app, ribbon); (app, keyup); (app, tab_display)] first_start in
  currentX (handle app tab_hide w) = currentX w
  ∧ currentY (handle app tab_hide w) = currentY w.
Proof.
  intros app w. apply (position_moves_only_on_tracking app tab_hide w).
  reflexivity.
Defined.

(** ** Restart *)

Lemma onload_in_sync app w :
  persisted_in_sync w →
  ∃ w2, onload app (dataJson w) = Some w2
        ∧ settings w2 = settings w
        ∧ dataJson w2 = dataJson w
        ∧ isActive w2 = wasActive (settings w)
        ∧ (overlayEl w2 ≠ None ↔ wasActive (settings w) = true)
        ∧ body w2 = match overlayEl w2 with Some el => [el] | None => [] end
        ∧ currentX w2 = 0 ∧ currentY w2 = 0.
Proof.
  unfold persisted_in_sync. intros Hs.
  destruct (onload app (dataJson w)) as [w2|] eqn:E.
  2: { unfold onload in E. rewrite Hs in E. discriminate. }
  exists w2. split; [reflexivity|].
  destruct (surface_owned_onload app _ w2 E) as [Hb Hi].
  pose proof (store_onload app _ w2 E) as [Hl Hd].
  rewrite Hs in Hl. injection Hl as Hl.
  unfold onload in E. rewrite Hs in E. cbn [mbind option_bind] in E.
  cbn [settings new_plugin] in E.
  assert (isActive w2 = wasActive (settings w) ∧ position w2 = (0, 0)) as [Ha Hp].
  { destruct (wasActive (settings w)); injection E as <-.
    - split; [reflexivity|].
      change (position (createOverlay app (new_plugin (settings w) (dataJson w)))
              = (0, 0)).
      rewrite position_createOverlay; reflexivity.
    - split; reflexivity. }
  unfold position in Hp. injection Hp as Hx Hy.
  repeat apply conj; try assumption; try congruence.
  - intros H. apply Hi in H. congruence.
  - intros H. apply Hi. congruence.
Qed.

(** X4.  Whatever the plugin has been through, loading the record it
    last saved starts it with the settings it has in memory: the overlay
    is there exactly if [wasActive] is set, and the target point is the
    origin until the first tracking event. *)
Theorem restart_restores_settings app w :
  reachable w →
  as_settings (loadSettings (dataJson w)) = Some (settings w)
  ∧ ∃ w2, onload app (dataJson w) = Some w2
          ∧ settings w2 = settings w
          ∧ dataJson w2 = dataJson w
          ∧ isActive w2 = wasActive (settings w)
          ∧ (overlayEl w2 ≠ None ↔ wasActive (settings w) = true)
          ∧ body w2 = match overlayEl w2 with Some el => [el] | None => [] end
          ∧ currentX w2 = 0 ∧ currentY w2 = 0.
Proof.
  intros Hr. pose proof (persisted_in_sync_reachable w Hr) as Hs.
  split; [exact Hs | apply onload_in_sync, Hs].
Qed.

Lemma restart_restores_settings_witness :
  let app := caret_at (Build_Rect 40 41 100 120) in
  let w := run [(app, ribbon); (app, command increase_offset);
                (app, change_spotlightShape square); (app, tab_hide);
                (app, keyup)] first_start in
  as_settings (loadSettings (dataJson w)) = Some (settings w)
  ∧ ∃ w2, onload app (dataJson w) = Some w2
          ∧ settings w2 = settings w
          ∧ dataJson w2 = dataJson w
          ∧ isActive w2 = wasActive (settings w)
          ∧ (overlayEl w2 ≠ None ↔ wasActive (settings w) = true)
          ∧ body w2 = match overlayEl w2 with Some el => [el] | None => [] end
          ∧ currentX w2 = 0 ∧ currentY w2 = 0.
Proof.
  intros app w. apply (restart_restores_settings app w).
  apply reachable_from_first_start.
Defined.

Lemma isActive_toggle app w : isActive (toggle app w) = negb (isActive w).
Proof.
  unfold toggle. cbv zeta.
  set (w1 := if isActive w then removeOverlay w else createOverlay app w).
  assert (isActive w1 = isActive w) as H1.
  { subst w1. destruct (isActive w) eqn:Hw.
    - pose proof (lifecycle_removeOverlay w) as L.
      apply lifecycle_inj in L as (_ & -> & _). exact Hw.
    - pose proof (lifecycle_createOverlay app w) as L.
      apply lifecycle_inj in L as (_ & -> & _). exact Hw. }
  match goal with
  | |- isActive (saveSettings (with_settings ?s ?w')) = _ =>
      pose proof (lifecycle_save_with_settings s w') as L
  end.
  apply lifecycle_inj in L as (_ & -> & _).
  cbn [isActive with_isActive]. rewrite H1. reflexivity.
Qed.

(** X5.  [toggle] inverts [isActive] and saves the new value as
    [wasActive], so that a restart right after a toggle comes up in the
    state the toggle left. *)
Theorem toggle_persists_active app app' w :
  reachable w →
  isActive (toggle app w) = negb (isActive w)
  ∧ wasActive (settings (toggle app w)) = isActive (toggle app w)
  ∧ (dataJson (toggle app w) ≫= (.!! "wasActive"))
    = Some (JBoolean (isActive (toggle app w)))
  ∧ ∃ w2, onload app' (dataJson (toggle app w)) = Some w2
          ∧ isActive w2 = isActive (toggle app w)
          ∧ (overlayEl w2 ≠ None ↔ overlayEl (toggle app w) ≠ None).
Proof.
  intros Hr.
  pose proof (reachable_handle app ribbon w Hr) as Hr'. cbn [handle] in Hr'.
  pose proof (store_toggle app w) as Hs. cbv zeta in Hs.
  apply store_inj in Hs as [Hs Hd].
  pose proof (isActive_toggle app w) as Ha.
  split; [exact Ha|].
  split; [rewrite Hs, Ha; reflexivity|].
  split.
  { rewrite Hd, Ha. cbn [mbind option_bind].
    rewrite to_object_declared by set_solver. reflexivity. }
  destruct (onload_in_sync app' (toggle app w)
              (persisted_in_sync_reachable _ Hr')) as (w2 & Ho & _ & _ & Ha2 & Hi2 & _).
  exists w2. split; [exact Ho|].
  assert (wasActive (settings (toggle app w)) = isActive (toggle app w)) as Hw
    by (rewrite Hs, Ha; reflexivity).
  split; [congruence|].
  destruct (surface_owned_reachable _ Hr') as [_ Hi].
  rewrite Hi2, Hw. symmetry. exact Hi.
Qed.

Lemma toggle_persists_active_witness :
  let w := run [(no_view, command increase_width)] first_start in
  isActive (toggle no_view w) = negb (isActive w)
  ∧ wasActive (settings (toggle no_view w)) = isActive (toggle no_view w)
  ∧ (dataJson (toggle no_view w) ≫= (.!! "wasActive"))
    = Some (JBoolean (isActive (toggle no_view w)))
  ∧ ∃ w2, onload no_view (dataJson (toggle no_view w)) = Some w2
          ∧ isActive w2 = isActive (toggle no_view w)
          ∧ (overlayEl w2 ≠ None ↔ overlayEl (toggle no_view w) ≠ None).
Proof.
  intros w. apply (toggle_persists_active no_view no_view w).
  apply reachable_from_first_start.
Defined.

(** ** The overlay element follows the settings *)

Lemma overlay_in_sync_div w : overlay_in_sync w → overlay_div w.
Proof.
  unfold overlay_in_sync, overlay_div.
  destruct (overlayEl w); [|trivial]. intros ->. eexists; split; reflexivity.
Qed.

Lemma overlay_in_sync_applySettings w :
  overlay_div w → overlay_in_sync (applySettings w).
Proof.
  unfold overlay_div, overlay_in_sync, applySettings, updateMask.
  destruct (overlayEl w) as [el|] eqn:E; [|rewrite ?E; trivial].
  intros (e & He & Hc).
  cbn [overlayEl with_nodes]. rewrite ?E.
  cbn [overlayEl with_nodes nodes settings currentX currentY]. rewrite ?E.
  rewrite !lookup_alter_eq, He. cbn [fmap option_fmap option_map].
  unfold set_style_maskImage, setProperty_blur_intensity.
  cbn [classList blur_intensity_px style_maskImage]. rewrite Hc. reflexivity.
Qed.

Lemma overlay_in_sync_save_with_settings s w :
  overlay_div w → overlay_in_sync (saveSettings (with_settings s w)).
Proof. intros H. unfold saveSettings. apply overlay_in_sync_applySettings. exact H. Qed.

Lemma overlay_in_sync_updateSpotlightPosition x y w :
  overlay_in_sync w → overlay_in_sync (updateSpotlightPosition x y w).
Proof.
  unfold overlay_in_sync, updateSpotlightPosition, updateMask.
  change (overlayEl (with_current x y w)) with (overlayEl w).
  destruct (overlayEl w) as [el|] eqn:E; cbn -[maskImage_of]; rewrite ?E; [|trivial].
  intros He. rewrite lookup_alter_eq, He. reflexivity.
Qed.

Lemma overlay_in_sync_trackCursor app w :
  overlay_in_sync w → overlay_in_sync (trackCursor app w).
Proof.
  unfold trackCursor. intros H.
  destruct (negb (isActive w)); [exact H|].
  destruct (getActiveViewOfType app) as [view|]; [|exact H].
  destruct (editor_cm view) as [ev|]; [|exact H].
  destruct (coordsAtPos ev (selection_main_head ev)); [|exact H].
  apply overlay_in_sync_updateSpotlightPosition, H.
Qed.

Lemma overlay_in_sync_on_mousemove x y w :
  overlay_in_sync w → overlay_in_sync (on_mousemove x y w).
Proof.
  unfold on_mousemove. intros H.
  destruct (isActive w), (trackingMode (settings w)); try exact H.
  apply overlay_in_sync_updateSpotlightPosition, H.
Qed.

Lemma overlay_in_sync_createOverlay app w : overlay_in_sync (createOverlay app w).
Proof.
  unfold createOverlay.
  apply overlay_in_sync_trackCursor, overlay_in_sync_applySettings.
  unfold overlay_div. cbn [overlayEl nodes].
  rewrite lookup_insert_eq. eexists; split; reflexivity.
Qed.

Lemma overlay_in_sync_removeOverlay w : overlay_in_sync (removeOverlay w).
Proof.
  unfold overlay_in_sync, removeOverlay.
  destruct (overlayEl w) eqn:E; simpl; rewrite ?E; trivial.
Qed.

Lemma overlay_in_sync_toggle app w : overlay_in_sync (toggle app w).
Proof.
  unfold toggle. apply overlay_in_sync_save_with_settings, overlay_in_sync_div.
  change (overlay_in_sync (if isActive w then removeOverlay w else createOverlay app w)).
  destruct (isActive w);
    [apply overlay_in_sync_removeOverlay | apply overlay_in_sync_createOverlay].
Qed.

Lemma overlay_in_sync_pauseOverlay w :
  overlay_in_sync w → overlay_in_sync (pauseOverlay w).
Proof.
  intros H. unfold pauseOverlay. cbn [isActive with_wasActiveBeforePause].
  destruct (isActive w); [|exact H].
  exact (overlay_in_sync_removeOverlay (with_wasActiveBeforePause true w)).
Qed.

Lemma overlay_in_sync_resumeOverlay app w :
  overlay_in_sync w → overlay_in_sync (resumeOverlay app w).
Proof.
  intros H. unfold resumeOverlay.
  destruct (wasActiveBeforePause w && negb (isActive w)); [|exact H].
  exact (overlay_in_sync_createOverlay app w).
Qed.

Lemma overlay_in_sync_handle app e w :
  overlay_in_sync w → overlay_in_sync (handle app e w).
Proof.
  intros H.
  pose proof (λ s, overlay_in_sync_save_with_settings s w (overlay_in_sync_div w H))
    as Hsave.
  destruct e; cbn [handle];
    unfold PrivacyScreenSettingTab.hide,
      PrivacyScreenSettingTab.spotlightWidth_onChange,
      PrivacyScreenSettingTab.horizontalOffset_onChange,
      PrivacyScreenSettingTab.spotlightHeight_onChange,
      PrivacyScreenSettingTab.blurIntensity_onChange,
      PrivacyScreenSettingTab.featherEdge_onChange,
      PrivacyScreenSettingTab.spotlightShape_onChange,
      PrivacyScreenSettingTab.squareRoundness_onChange,
      PrivacyScreenSettingTab.trackingMode_onChange,
      PrivacyScreenSettingTab.previewCursorBlink_onChange,
      PrivacyScreenSettingTab.display.
  - apply overlay_in_sync_toggle.
  - destruct c; cbn [runCommand]; [apply overlay_in_sync_toggle | ..];
      unfold adjustSetting, adjustOffset, resetSettings, toggleTrackingMode;
      apply Hsave.
  - apply overlay_in_sync_trackCursor, H.
  - apply overlay_in_sync_trackCursor, H.
  - apply overlay_in_sync_trackCursor, H.
  - apply overlay_in_sync_on_mousemove, H.
  - apply overlay_in_sync_pauseOverlay, H.
  - apply overlay_in_sync_resumeOverlay, H.
  - apply overlay_in_sync_pauseOverlay, Hsave.
  - apply Hsave.
  - apply Hsave.
  - apply Hsave.
  - apply Hsave.
  - apply overlay_in_sync_pauseOverlay, Hsave.
  - apply Hsave.
  - apply Hsave.
  - apply overlay_in_sync_pauseOverlay, Hsave.
  - apply overlay_in_sync_applySettings, overlay_in_sync_div, H.
Qed.

Lemma overlay_in_sync_reachable w : reachable w → overlay_in_sync w.
Proof.
  induction 1 as [app data w H | app e w _ IH].
  - unfold onload in H.
    destruct (as_settings (loadSettings data)) as [s|]; [|discriminate].
    cbn [mbind option_bind] in H. injection H as <-.
    cbn [settings new_plugin].
    destruct (wasActive s); [|exact I].
    exact (overlay_in_sync_createOverlay app (new_plugin s data)).
  - apply overlay_in_sync_handle, IH.
Qed.

Lemma overlay_shows_current_settings_aux w :
  reachable w → isActive w = true →
  rendered_mask w = Some (maskImage_of (settings w) (currentX w) (currentY w)).
Proof.
  intros Hr Ha.
  pose proof (overlay_in_sync_reachable w Hr) as Hs.
  destruct (active_has_overlay w Hr Ha) as (el & e & Ho & _).
  unfold overlay_in_sync in Hs. rewrite Ho in Hs.
  unfold rendered_mask. rewrite Ho. cbn [mbind option_bind]. rewrite Hs. reflexivity.
Qed.

(** X6.  The overlay always shows the current settings at the current
    target point (a save being taken to complete within its handler): in
    every reachable state in which the plugin is active,
    the element it holds is the overlay [div], its [--blur-intensity] is
    the [blurIntensity] of the settings, and its mask is the one computed
    from the settings, [currentX] and [currentY]. *)
Theorem overlay_shows_current_settings w :
  reachable w → isActive w = true →
  ∃ el, overlayEl w = Some el
        ∧ nodes w !! el
          = Some {| classList := ["privacy-screen-overlay"];
                    blur_intensity_px := Some (blurIntensity (settings w));
                    style_maskImage :=
                      Some (maskImage_of (settings w) (currentX w) (currentY w)) |}
        ∧ rendered_mask w
          = Some (maskImage_of (settings w) (currentX w) (currentY w)).
Proof.
  intros Hr Ha.
  pose proof (overlay_in_sync_reachable w Hr) as Hs.
  destruct (active_has_overlay w Hr Ha) as (el & e & Ho & _).
  unfold overlay_in_sync in Hs. rewrite Ho in Hs.
  exists el. repeat split; [exact Ho | exact Hs |].
  unfold rendered_mask. rewrite Ho. cbn [mbind option_bind]. rewrite Hs. reflexivity.
Qed.

Lemma overlay_shows_current_settings_witness :
  let app := caret_at (Build_Rect 40 41 100 120) in
  let w := run [(app, ribbon); (app, click); (app, command increase_blur);
                (app, change_spotlightShape square); (app, tab_hide)] first_start in
  ∃ el, overlayEl w = Some el
        ∧ nodes w !! el
          = Some {| classList := ["privacy-screen-overlay"];
                    blur_intensity_px := Some (blurIntensity (settings w));
                    style_maskImage :=
                      Some (maskImage_of (settings w) (currentX w) (currentY w)) |}
        ∧ rendered_mask w
          = Some (maskImage_of (settings w) (currentX w) (currentY w)).
Proof.
  intros app w. apply (overlay_shows_current_settings w).
  - apply reachable_from_first_start.
  - vm_compute. reflexivity.
Defined.

(** ** Re-applying *)

Lemma updateMask_Some w el :
  overlayEl w = Some el →
  updateMask w
  = with_nodes
      (alter (set_style_maskImage (maskImage_of (settings w) (currentX w) (currentY w)))
             el (nodes w)) w.
Proof. unfold updateMask. intros ->. reflexivity. Qed.

Lemma applySettings_Some w el :
  overlayEl w = Some el →
  applySettings w
  = with_nodes
      (alter (set_style_maskImage (maskImage_of (settings w) (currentX w) (currentY w))
              ∘ setProperty_blur_intensity (blurIntensity (settings w)))
             el (nodes w)) w.
Proof.
  intros E. unfold applySettings. rewrite E.
  rewrite (updateMask_Some _ el) by exact E.
  unfold with_nodes. cbn -[maskImage_of]. rewrite alter_alter_eq. reflexivity.
Qed.

(** X7.  Applying has no memory.  Applying the settings twice is applying
    them once, and of two position updates only the later one shows:
    nothing of the earlier mask is left in the state. *)
Theorem reapply_is_idempotent w x1 y1 x2 y2 :
  applySettings (applySettings w) = applySettings w
  ∧ updateMask (updateMask w) = updateMask w
  ∧ updateSpotlightPosition x2 y2 (updateSpotlightPosition x1 y1 w)
    = updateSpotlightPosition x2 y2 w.
Proof.
  destruct (overlayEl w) as [el|] eqn:E.
  - repeat apply conj.
    + rewrite (applySettings_Some w el E).
      rewrite (applySettings_Some _ el) by exact E.
      unfold with_nodes. cbn -[maskImage_of]. f_equal.
      rewrite alter_alter_eq. apply alter_ext. intros [] _. reflexivity.
    + rewrite (updateMask_Some w el E).
      rewrite (updateMask_Some _ el) by exact E.
      unfold with_nodes. cbn -[maskImage_of]. f_equal.
      rewrite alter_alter_eq. apply alter_ext. intros [] _. reflexivity.
    + unfold updateSpotlightPosition.
      rewrite (updateMask_Some (with_current x1 y1 w) el E).
      rewrite (updateMask_Some (with_current x2 y2 w) el E).
      rewrite (updateMask_Some _ el) by exact E.
      unfold with_nodes, with_current. cbn -[maskImage_of]. f_equal.
      rewrite alter_alter_eq. apply alter_ext. intros [] _. reflexivity.
  - unfold updateSpotlightPosition, applySettings, updateMask.
    cbn [overlayEl with_current]. rewrite !E. cbn [overlayEl with_current].
    rewrite !E. repeat apply conj; reflexivity.
Qed.

(** ** Unloading *)

(** X8.  Unloading takes the overlay out of the document in every
    reachable state, and touches neither the settings nor the saved
    record; [isActive] keeps the value it had. *)
Theorem onunload_removes_overlay w :
  reachable w →
  body (onunload w) = []
  ∧ overlayEl (onunload w) = None
  ∧ settings (onunload w) = settings w
  ∧ dataJson (onunload w) = dataJson w
  ∧ isActive (onunload w) = isActive w.
Proof.
  intros Hr. destruct (surface_owned_reachable w Hr) as [Hb _].
  unfold onunload.
  pose proof (lifecycle_removeOverlay w) as L.
  apply lifecycle_inj in L as (Lo & La & _ & Lb).
  pose proof (store_removeOverlay w) as Hs. apply store_inj in Hs as [Hs Hd].
  repeat apply conj; try assumption.
  rewrite Lb. destruct (overlayEl w) as [el|]; [|exact Hb].
  rewrite Hb. apply filter_out_single.
Qed.

Lemma onunload_removes_overlay_witness :
  let w := run [(no_view, ribbon); (no_view, mousemove 10 20)] first_start in
  body (onunload w) = []
  ∧ overlayEl (onunload w) = None
  ∧ settings (onunload w) = settings w
  ∧ dataJson (onunload w) = dataJson w
  ∧ isActive (onunload w) = isActive w.
Proof.
  intros w. apply (onunload_removes_overlay w).
  apply reachable_from_first_start.
Defined.

(** ** Pausing once *)

Lemma reachable_pause_resume app w :
  reachable w → reachable (resumeOverlay app (pauseOverlay w)).
Proof.
  intros Hr.
  apply (reachable_handle app tab_hide), (reachable_handle app tab_display), Hr.
Qed.

(** X9.  Showing the settings tab and hiding it again, with nothing in
    between, is invisible: after one [pauseOverlay] and one
    [resumeOverlay] the plugin is active exactly if it was, holds a
    surface exactly if it did, has the same settings and target point,
    and shows the same mask. *)
Theorem pause_resume_restores w app :
  reachable w →
  let w' := resumeOverlay app (pauseOverlay w) in
  isActive w' = isActive w
  ∧ (overlayEl w' ≠ None ↔ overlayEl w ≠ None)
  ∧ settings w' = settings w
  ∧ currentX w' = currentX w ∧ currentY w' = currentY w
  ∧ rendered_mask w' = rendered_mask w.
Proof.
  intros Hr. cbv zeta.
  pose proof (reachable_pause_resume app w Hr) as Hr'.
  set (w' := resumeOverlay app (pauseOverlay w)) in *.
  assert (store w' = store w) as Hs.
  { subst w'. rewrite store_resumeOverlay, store_pauseOverlay. reflexivity. }
  assert (position w' = position w) as Hp.
  { subst w'. rewrite position_resumeOverlay, position_pauseOverlay. reflexivity. }
  apply store_inj in Hs as [Hs _].
  unfold position in Hp. injection Hp as Hx Hy.
  destruct (pause_resume_once app w (surface_owned_reachable w Hr)) as [Hst _].
  fold w' in Hst. unfold overlay_state in Hst. injection Hst as Ha Hb.
  destruct (surface_owned_reachable w Hr) as [_ Hi].
  destruct (surface_owned_reachable w' Hr') as [_ Hi'].
  repeat apply conj; try assumption.
  - intros H. apply Hi. rewrite <- Ha. apply Hi'. exact H.
  - intros H. apply Hi'. rewrite Ha. apply Hi. exact H.
  - destruct (isActive w) eqn:Hw.
    + rewrite (overlay_shows_current_settings_aux w Hr Hw).
      rewrite (overlay_shows_current_settings_aux w' Hr' Ha).
      rewrite Hs, Hx, Hy. reflexivity.
    + assert (overlayEl w = None) as Ho.
      { destruct (overlayEl w) eqn:Ho; [|reflexivity].
        assert (Some n ≠ None) as X by discriminate. apply Hi in X. discriminate. }
      assert (overlayEl w' = None) as Ho'.
      { destruct (overlayEl w') eqn:Ho'; [|reflexivity].
        assert (Some n ≠ None) as X by discriminate. apply Hi' in X. congruence. }
      unfold rendered_mask. rewrite Ho, Ho'. reflexivity.
Qed.

Lemma pause_resume_restores_witness :
  let app := caret_at (Build_Rect 40 41 100 120) in
  let w := run [(app, ribbon); (app, keyup)] first_start in
  let w' := resumeOverlay app (pauseOverlay w) in
  isActive w' = isActive w
  ∧ (overlayEl w' ≠ None ↔ overlayEl w ≠ None)
  ∧ settings w' = settings w
  ∧ currentX w' = currentX w ∧ currentY w' = currentY w
  ∧ rendered_mask w' = rendered_mask w.
Proof.
  intros app w. apply (pause_resume_restores w app).
  apply reachable_from_first_start.
Defined.

(** ** Clamping *)

Lemma clamp_range lo hi x :
  lo <= hi →
  (lo <= Math.max lo (Math.min hi x) ∧ Math.max lo (Math.min hi x) <= hi)
  ∧ (lo <= x ∧ x <= hi → Math.max lo (Math.min hi x) == x)
  ∧ (hi <= x → Math.max lo (Math.min hi x) == hi)
  ∧ (x <= lo → Math.max lo (Math.min hi x) == lo).
Proof.
  intros H. unfold Math.max, Math.min. repeat apply conj.
  - apply Q.le_max_l.
  - apply Q.max_lub; [exact H | apply Q.le_min_l].
  - intros [Hl Hh]. rewrite (Q.min_r hi x Hh). apply Q.max_r, Hl.
  - intros Hx. rewrite (Q.min_l hi x Hx). apply Q.max_r, H.
  - intros Hx. apply Q.max_l. eapply Qle_trans; [apply Q.le_min_r | exact Hx].
Qed.

Lemma get_set_key key v s : get_key key (set_key key v s) = v.
Proof. destruct key; reflexivity. Qed.

Lemma get_set_key_ne key key' v s :
  key' ≠ key → get_key key' (set_key key v s) = get_key key' s.
Proof. destruct key, key'; intros H; try reflexivity; contradiction. Qed.

(** X10.  [adjustSetting] never leaves its limits: the new value is the
    old one plus [delta] when that lies between [min] and [max], and the
    nearer limit otherwise, so a command repeated at a limit changes
    nothing.  It changes no other adjustable setting and not the offset,
    and it saves what it set. *)
Theorem adjustSetting_clamps key delta min max w :
  min <= max →
  let old := get_key key (settings w) in
  let w' := adjustSetting key delta min max w in
  let new := get_key key (settings w') in
  (min <= new ∧ new <= max)
  ∧ (min <= old + delta ∧ old + delta <= max → new == old + delta)
  ∧ (max <= old + delta → new == max)
  ∧ (old + delta <= min → new == min)
  ∧ (∀ key', key' ≠ key → get_key key' (settings w') = get_key key' (settings w))
  ∧ horizontalOffset (settings w') = horizontalOffset (settings w)
  ∧ dataJson w' = Some (to_object (settings w')).
Proof.
  intros H. cbv zeta. unfold adjustSetting.
  rewrite settings_save_with_settings, dataJson_save_with_settings, get_set_key.
  destruct (clamp_range min max (get_key key (settings w) + delta) H)
    as (Hr & Hin & Hhi & Hlo).
  repeat apply conj; try assumption; try apply Hr.
  - intros key' Hk. apply get_set_key_ne, Hk.
  - destruct key; reflexivity.
  - reflexivity.
Qed.

Lemma adjustSetting_clamps_witness :
  let w := run (repeat (no_view, command increase_blur) 11) first_start in
  let old := get_key key_blurIntensity (settings w) in
  let w' := adjustSetting key_blurIntensity 1 2 20 w in
  let new := get_key key_blurIntensity (settings w') in
  (2 <= new ∧ new <= 20)
  ∧ (2 <= old + 1 ∧ old + 1 <= 20 → new == old + 1)
  ∧ (20 <= old + 1 → new == 20)
  ∧ (old + 1 <= 2 → new == 2)
  ∧ (∀ key', key' ≠ key_blurIntensity →
       get_key key' (settings w') = get_key key' (settings w))
  ∧ horizontalOffset (settings w') = horizontalOffset (settings w)
  ∧ dataJson w' = Some (to_object (settings w')).
Proof.
  intros w. apply (adjustSetting_clamps key_blurIntensity 1 2 20 w).
  vm_compute. discriminate.
Defined.

(** X11.  [adjustOffset] keeps the offset within the bound of the current
    width (for a width of at least 10, where the bound is not negative):
    the new offset is the old one plus [delta] when that is within the
    bound, and the bound of the matching sign otherwise.  The width is
    not changed. *)
Theorem adjustOffset_clamps delta w :
  10 <= spotlightWidth (settings w) →
  let maxOffset := Math.floor (spotlightWidth (settings w) / 2) - 5 in
  let old := horizontalOffset (settings w) in
  let w' := adjustOffset delta w in
  let new := horizontalOffset (settings w') in
  offset_within_bound (settings w')
  ∧ (Qabs (old + delta) <= maxOffset → new == old + delta)
  ∧ (maxOffset <= old + delta → new == maxOffset)
  ∧ (old + delta <= - maxOffset → new == - maxOffset)
  ∧ spotlightWidth (settings w') = spotlightWidth (settings w)
  ∧ dataJson w' = Some (to_object (settings w')).
Proof.
  intros H. cbv zeta.
  split; [apply adjustOffset_within_bound, H|].
  unfold adjustOffset.
  rewrite settings_save_with_settings, dataJson_save_with_settings.
  cbn [horizontalOffset spotlightWidth set_horizontalOffset].
  pose proof (maxOffset_nonneg _ H) as Hm.
  set (m := Math.floor (spotlightWidth (settings w) / 2) - 5) in *.
  assert (- m <= m) as Hmm by lra.
  destruct (clamp_range (- m) m (horizontalOffset (settings w) + delta) Hmm)
    as (_ & Hin & Hhi & Hlo).
  repeat apply conj; try assumption; try reflexivity.
  intros Ha. apply Qabs_Qle_condition in Ha. apply Hin, Ha.
Qed.

Lemma adjustOffset_clamps_witness :
  let w := run (repeat (no_view, command decrease_offset) 18) first_start in
  let maxOffset := Math.floor (spotlightWidth (settings w) / 2) - 5 in
  let old := horizontalOffset (settings w) in
  let w' := adjustOffset (-5) w in
  let new := horizontalOffset (settings w') in
  offset_within_bound (settings w')
  ∧ (Qabs (old + -5) <= maxOffset → new == old + -5)
  ∧ (maxOffset <= old + -5 → new == maxOffset)
  ∧ (old + -5 <= - maxOffset → new == - maxOffset)
  ∧ spotlightWidth (settings w') = spotlightWidth (settings w)
  ∧ dataJson w' = Some (to_object (settings w')).
Proof.
  intros w. apply (adjustOffset_clamps (-5) w).
  vm_compute. discriminate.
Defined.

(** X12.  The width slider re-clamps: for a slider value of at least 10,
    the offset is within the bound of the new width afterwards; an offset
    beyond the new bound becomes the bound of its own sign, and an offset
    within it is kept. *)
Theorem width_slider_reclamps value w :
  10 <= value →
  let s := settings w in
  let s' := settings (PrivacyScreenSettingTab.spotlightWidth_onChange value w) in
  let maxOffset := Math.floor (value / 2) - 5 in
  spotlightWidth s' = value
  ∧ offset_within_bound s'
  ∧ (maxOffset < horizontalOffset s → horizontalOffset s' = maxOffset)
  ∧ (horizontalOffset s < - maxOffset → horizontalOffset s' = - maxOffset)
  ∧ (Qabs (horizontalOffset s) <= maxOffset → horizontalOffset s' = horizontalOffset s).
Proof. intros H. exact (spotlightWidth_onChange_within_bound value w H). Qed.

Lemma width_slider_reclamps_witness :
  let w := run (repeat (no_view, command decrease_offset) 19) first_start in
  let s := settings w in
  let s' := settings (PrivacyScreenSettingTab.spotlightWidth_onChange 64 w) in
  let maxOffset := Math.floor (64 / 2) - 5 in
  spotlightWidth s' = 64
  ∧ offset_within_bound s'
  ∧ (maxOffset < horizontalOffset s → horizontalOffset s' = maxOffset)
  ∧ (horizontalOffset s < - maxOffset → horizontalOffset s' = - maxOffset)
  ∧ (Qabs (horizontalOffset s) <= maxOffset → horizontalOffset s' = horizontalOffset s).
Proof.
  intros w. apply (width_slider_reclamps 64 w).
  vm_compute. discriminate.
Defined.

(** ** The settings after each handler *)

Lemma settings_toggle app w :
  settings (toggle app w) = set_wasActive (negb (isActive w)) (settings w).
Proof.
  pose proof (store_toggle app w) as H. cbv zeta in H.
  apply store_inj in H as [H _]. exact H.
Qed.

Lemma settings_trackCursor app w : settings (trackCursor app w) = settings w.
Proof. apply settings_store, store_trackCursor. Qed.

Lemma settings_on_mousemove x y w : settings (on_mousemove x y w) = settings w.
Proof. apply settings_store, store_on_mousemove. Qed.

Lemma settings_resumeOverlay app w : settings (resumeOverlay app w) = settings w.
Proof. apply settings_store, store_resumeOverlay. Qed.

Lemma settings_in_range_DEFAULT : settings_in_range DEFAULT_SETTINGS.
Proof. unfold settings_in_range. cbn. repeat split; discriminate. Qed.

Ltac unfold_handlers :=
  unfold PrivacyScreenSettingTab.hide,
    PrivacyScreenSettingTab.spotlightWidth_onChange,
    PrivacyScreenSettingTab.horizontalOffset_onChange,
    PrivacyScreenSettingTab.spotlightHeight_onChange,
    PrivacyScreenSettingTab.blurIntensity_onChange,
    PrivacyScreenSettingTab.featherEdge_onChange,
    PrivacyScreenSettingTab.spotlightShape_onChange,
    PrivacyScreenSettingTab.squareRoundness_onChange,
    PrivacyScreenSettingTab.trackingMode_onChange,
    PrivacyScreenSettingTab.previewCursorBlink_onChange,
    PrivacyScreenSettingTab.display,
    adjustSetting, adjustOffset, resetSettings, toggleTrackingMode;
  rewrite ?settings_pauseOverlay, ?settings_save_with_settings,
    ?settings_toggle, ?settings_trackCursor, ?settings_on_mousemove,
    ?settings_resumeOverlay, ?settings_applySettings.

Ltac project_settings :=
  cbn [spotlightWidth spotlightHeight horizontalOffset blurIntensity featherEdge
       squareRoundness set_key get_key
       set_spotlightWidth set_spotlightHeight set_horizontalOffset
       set_blurIntensity set_featherEdge set_spotlightShape set_squareRoundness
       set_previewCursorBlink set_wasActive set_trackingMode] in *.

(** X13.  The adjustable settings stay in their ranges: if width and
    height are in [24, 600], blur in [2, 20], feather in [10, 100] and
    roundness in [0, 100], they still are after any handler, provided the
    sliders of these five settings deliver values within their limits
    (whatever the offset slider delivers). *)
Theorem settings_stay_in_range app e w :
  settings_in_range (settings w) →
  within_slider_limits e →
  settings_in_range (settings (handle app e w)).
Proof.
  intros Hin Hlim.
  assert (24 <= 600) as H1 by lra. assert (2 <= 20) as H2 by lra.
  destruct e; cbn [handle]; try (destruct c; cbn [runCommand]);
    unfold_handlers; try exact Hin; try exact settings_in_range_DEFAULT;
    unfold settings_in_range, within_slider_limits in *;
    try match goal with
        | |- context [Qlt_le_dec ?a ?b] =>
            destruct (Qlt_le_dec a b);
            [|match goal with
              | |- context [Qlt_le_dec ?a ?b] => destruct (Qlt_le_dec a b)
              end]
        end;
    project_settings;
    try match goal with
        | |- context [Math.max ?lo (Math.min ?hi ?x)] =>
            let H := fresh in
            assert (lo <= hi) as H by lra;
            destruct (clamp_range lo hi x H) as ([? ?] & _)
        end;
    tauto.
Qed.

Lemma settings_stay_in_range_witness :
  let w := run [(no_view, ribbon)] first_start in
  settings_in_range (settings (handle no_view (change_featherEdge 35) w)).
Proof.
  intros w. apply (settings_stay_in_range no_view (change_featherEdge 35) w).
  - unfold settings_in_range. vm_compute. repeat split; discriminate.
  - cbn. split; discriminate.
Defined.

Lemma floor_half_mono a b :
  a <= b → Math.floor (a / 2) - 5 <= Math.floor (b / 2) - 5.
Proof.
  intros H. unfold Math.floor.
  assert (a / 2 <= b / 2) as H2
    by (apply Qmult_le_compat_r; [exact H | discriminate]).
  apply Qfloor_resp_le in H2. rewrite Zle_Qle in H2. lra.
Qed.

(** X14.  Only the [decrease-width] command and the offset slider can
    take the offset out of its bound.  If the offset is within the bound
    of the width, the width is at most 600 and the width slider delivers
    a value within its limits, then after any handler other than these
    two the offset is within the bound of the width again.  The offset
    slider stores the value it delivers as it is, and leaves the width. *)
Theorem offset_bound_kept_by_other_handlers app e w :
  offset_within_bound (settings w) →
  spotlightWidth (settings w) <= 600 →
  within_slider_limits e →
  e ≠ command decrease_width →
  match e with
  | change_horizontalOffset v =>
      horizontalOffset (settings (handle app e w)) = v
      ∧ spotlightWidth (settings (handle app e w)) = spotlightWidth (settings w)
  | _ => offset_within_bound (settings (handle app e w))
  end.
Proof.
  intros Hb Hw Hlim Hne.
  assert (0 <= Math.floor (spotlightWidth (settings w) / 2) - 5) as Hm.
  { eapply Qle_trans; [apply Qabs_nonneg | exact Hb]. }
  destruct e; cbn [handle]; try (destruct c; cbn [runCommand]);
    try (exfalso; apply Hne; reflexivity).
  all: try (unfold_handlers; exact Hb).
  all: try (unfold_handlers; unfold offset_within_bound in *; project_settings;
            exact Hb).
  - (* increase-width *)
    unfold_handlers. unfold offset_within_bound in *. project_settings.
    eapply Qle_trans; [exact Hb|]. apply floor_half_mono.
    assert (24 <= 600) as H by lra.
    destruct (clamp_range 24 600 (spotlightWidth (settings w) + 10) H)
      as (_ & Hin & Hhi & _).
    destruct (Qlt_le_dec (spotlightWidth (settings w) + 10) 600) as [Hlt|Hge].
    + destruct (Qlt_le_dec (spotlightWidth (settings w) + 10) 24) as [Hlo|Hlo].
      * eapply Qle_trans; [|apply Q.le_max_l]. lra.
      * rewrite Hin by lra. lra.
    + rewrite Hhi by exact Hge. exact Hw.
  - (* increase-offset *)
    unfold_handlers. unfold offset_within_bound. project_settings.
    apply clamp_within, Hm.
  - (* decrease-offset *)
    unfold_handlers. unfold offset_within_bound. project_settings.
    apply clamp_within, Hm.
  - (* reset *)
    unfold_handlers. apply offset_within_boundb_iff. vm_compute. reflexivity.
  - (* width slider *)
    cbn in Hlim. destruct Hlim as [Hlo _].
    apply spotlightWidth_onChange_within_bound. lra.
  - (* offset slider *)
    unfold_handlers. project_settings. split; reflexivity.
Qed.

Lemma offset_bound_kept_by_other_handlers_witness :
  let w := run (repeat (no_view, command increase_offset) 19) first_start in
  offset_within_bound (settings (handle no_view (command increase_width) w)).
Proof.
  intros w.
  apply (offset_bound_kept_by_other_handlers no_view (command increase_width) w).
  - apply offset_within_boundb_iff. vm_compute. reflexivity.
  - vm_compute. discriminate.
  - exact I.
  - discriminate.
Defined.

(** The limits of the offset slider go stale: shown at width 600 it
    reaches up to 295; after a reset (width 200, bound 95) it still
    does, and the value is stored as delivered. *)
Example scenario_stale_offset_slider :
  let w := run (repeat (no_view, command increase_width) 40
                ++ [(no_view, tab_display); (no_view, command reset_settings);
                    (no_view, change_horizontalOffset 295)]) first_start in
  spotlightWidth (settings w) == 200
  ∧ horizontalOffset (settings w) == 295
  ∧ offset_within_boundb (settings w) = false.
Proof. cbv zeta. repeat apply conj; vm_compute; reflexivity. Qed.

(** ** Toggling twice *)

(** X15.  Two toggles in a row bring a reachable plugin back: it is
    active exactly if it was, holds a surface exactly if it did, shows the
    same mask at the same target point, and the saved [wasActive] is
    [isActive].  All other settings are untouched. *)
Theorem toggle_twice app app' w :
  reachable w →
  let w2 := toggle app' (toggle app w) in
  isActive w2 = isActive w
  ∧ (overlayEl w2 ≠ None ↔ overlayEl w ≠ None)
  ∧ settings w2 = set_wasActive (isActive w) (settings w)
  ∧ dataJson w2 = Some (to_object (settings w2))
  ∧ currentX w2 = currentX w ∧ currentY w2 = currentY w
  ∧ rendered_mask w2 = rendered_mask w.
Proof.
  intros Hr. cbv zeta.
  assert (reachable (toggle app' (toggle app w))) as Hr2.
  { apply (reachable_handle app' ribbon), (reachable_handle app ribbon), Hr. }
  set (w2 := toggle app' (toggle app w)) in *.
  assert (isActive w2 = isActive w) as Ha.
  { subst w2. rewrite !isActive_toggle. apply negb_involutive. }
  assert (settings w2 = set_wasActive (isActive w) (settings w)) as Hs.
  { subst w2. rewrite !settings_toggle, isActive_toggle, negb_involutive.
    reflexivity. }
  assert (position w2 = position w) as Hp.
  { subst w2. rewrite !position_toggle. reflexivity. }
  unfold position in Hp. injection Hp as Hx Hy.
  destruct (surface_owned_reachable w Hr) as [_ Hi].
  destruct (surface_owned_reachable w2 Hr2) as [_ Hi2].
  repeat apply conj; try assumption.
  - intros H. apply Hi. rewrite <- Ha. apply Hi2. exact H.
  - intros H. apply Hi2. rewrite Ha. apply Hi. exact H.
  - pose proof (store_toggle app' (toggle app w)) as Hst. cbv zeta in Hst.
    apply store_inj in Hst as [Hst Hd]. subst w2. rewrite Hd, Hst. reflexivity.
  - destruct (isActive w) eqn:Hw.
    + rewrite (overlay_shows_current_settings_aux w Hr Hw).
      rewrite (overlay_shows_current_settings_aux w2 Hr2 Ha).
      rewrite Hs, Hx, Hy. reflexivity.
    + assert (overlayEl w = None) as Ho.
      { destruct (overlayEl w) eqn:Ho; [|reflexivity].
        assert (Some n ≠ None) as X by discriminate. apply Hi in X. discriminate. }
      assert (overlayEl w2 = None) as Ho2.
      { destruct (overlayEl w2) eqn:Ho2; [|reflexivity].
        assert (Some n ≠ None) as X by discriminate. apply Hi2 in X. congruence. }
      unfold rendered_mask. rewrite Ho, Ho2. reflexivity.
Qed.

Lemma toggle_twice_witness :
  let app := caret_at (Build_Rect 40 41 100 120) in
  let w := run [(app, ribbon); (app, click); (app, command reset_settings)]
               first_start in
  let w2 := toggle app (toggle app w) in
  isActive w2 = isActive w
  ∧ (overlayEl w2 ≠ None ↔ overlayEl w ≠ None)
  ∧ settings w2 = set_wasActive (isActive w) (settings w)
  ∧ dataJson w2 = Some (to_object (settings w2))
  ∧ currentX w2 = currentX w ∧ currentY w2 = currentY w
  ∧ rendered_mask w2 = rendered_mask w.
Proof.
  intros app w. apply (toggle_twice app app w).
  apply reachable_from_first_start.
Defined.

(** ** The tracking mode *)

(** X16.  [toggleTrackingMode] switches between the two modes and changes
    nothing else in the settings; done twice it gives back the settings
    it started from, saved. *)
Theorem toggleTrackingMode_twice w :
  trackingMode (settings (toggleTrackingMode w)) ≠ trackingMode (settings w)
  ∧ set_trackingMode (trackingMode (settings w)) (settings (toggleTrackingMode w))
    = settings w
  ∧ settings (toggleTrackingMode (toggleTrackingMode w)) = settings w
  ∧ dataJson (toggleTrackingMode (toggleTrackingMode w))
    = Some (to_object (settings w)).
Proof.
  unfold toggleTrackingMode.
  rewrite !settings_save_with_settings, !dataJson_save_with_settings.
  destruct (settings w) as [? ? ? ? ? ? ? ? ? [] ?];
    cbn [trackingMode set_trackingMode]; repeat apply conj;
    try discriminate; reflexivity.
Qed.

(** ** Loading partial and older records *)

Lemma loadSettings_Some_lookup (data : gmap string JSValue) k :
  k ≠ "__proto__" →
  loadSettings (Some data) !! k
  = match data !! k with
    | Some v => Some v
    | None => DEFAULT_SETTINGS_object !! k
    end.
Proof.
  intros Hk. rewrite loadSettings_unfold.
  destruct (data !! k) as [v|] eqn:E.
  - apply lookup_union_Some_l. rewrite lookup_delete_ne by congruence. exact E.
  - apply lookup_union_r. rewrite lookup_delete_ne by congruence. exact E.
Qed.

Lemma load_number data k d :
  well_typed_record data → k ∈ number_keys →
  DEFAULT_SETTINGS_object !! k = Some (JNumber d) →
  is_Some (get_number (loadSettings (Some data)) k).
Proof.
  intros (Hn & _) Hk Hd. unfold get_number.
  rewrite loadSettings_Some_lookup by (intros ->; discriminate Hd).
  destruct (data !! k) as [v|] eqn:E.
  - destruct (Hn k v Hk E) as [q ->]. eexists; reflexivity.
  - rewrite Hd. eexists; reflexivity.
Qed.

Lemma load_boolean data k d :
  well_typed_record data → k ∈ boolean_keys →
  DEFAULT_SETTINGS_object !! k = Some (JBoolean d) →
  is_Some (get_boolean (loadSettings (Some data)) k).
Proof.
  intros (_ & Hb & _) Hk Hd. unfold get_boolean.
  rewrite loadSettings_Some_lookup by (intros ->; discriminate Hd).
  destruct (data !! k) as [v|] eqn:E.
  - destruct (Hb k v Hk E) as [q ->]. eexists; reflexivity.
  - rewrite Hd. eexists; reflexivity.
Qed.

Lemma load_shape data :
  well_typed_record data →
  is_Some (get_shape (loadSettings (Some data)) "spotlightShape").
Proof.
  intros (_ & _ & Hs & _). unfold get_shape.
  rewrite loadSettings_Some_lookup by discriminate.
  destruct (data !! "spotlightShape") as [v|] eqn:E.
  - destruct (Hs v eq_refl) as [-> | ->]; eexists; reflexivity.
  - eexists; reflexivity.
Qed.

Lemma load_mode data :
  well_typed_record data →
  is_Some (get_mode (loadSettings (Some data)) "trackingMode").
Proof.
  intros (_ & _ & _ & Hm). unfold get_mode.
  rewrite loadSettings_Some_lookup by discriminate.
  destruct (data !! "trackingMode") as [v|] eqn:E.
  - destruct (Hm v eq_refl) as [-> | ->]; eexists; reflexivity.
  - eexists; reflexivity.
Qed.

Lemma as_settings_well_typed data :
  well_typed_record data → is_Some (as_settings (loadSettings (Some data))).
Proof.
  intros H. unfold as_settings.
  destruct (load_number data "spotlightWidth" 200 H) as [? ->];
    [set_solver | reflexivity |].
  destruct (load_number data "spotlightHeight" 100 H) as [? ->];
    [set_solver | reflexivity |].
  destruct (load_number data "horizontalOffset" 0 H) as [? ->];
    [set_solver | reflexivity |].
  destruct (load_number data "blurIntensity" 8 H) as [? ->];
    [set_solver | reflexivity |].
  destruct (load_number data "featherEdge" 50 H) as [? ->];
    [set_solver | reflexivity |].
  destruct (load_shape data H) as [? ->].
  destruct (load_number data "squareRoundness" 20 H) as [? ->];
    [set_solver | reflexivity |].
  destruct (load_boolean data "previewCursorBlink" true H) as [? ->];
    [set_solver | reflexivity |].
  destruct (load_boolean data "wasActive" false H) as [? ->];
    [set_solver | reflexivity |].
  destruct (load_mode data H) as [? ->].
  cbn [mbind option_bind]. eexists; reflexivity.
Qed.

Lemma settings_onload app data w :
  onload app data = Some w → as_settings (loadSettings data) = Some (settings w).
Proof. intros H. apply store_onload in H as [H _]. exact H. Qed.

(** X17.  A partial record loads.  If every declared key that the saved
    record has holds a value of its declared type, [onload] succeeds, and
    the settings object it starts with has, for every key other than
    [__proto__], the saved value where there is one and the default
    otherwise; it has no [__proto__] of its own, whatever the record
    holds under that name. *)
Theorem onload_partial_record app data :
  well_typed_record data →
  ∃ w, onload app (Some data) = Some w
       ∧ to_object (settings w) = loadSettings (Some data)
       ∧ (∀ k, k ≠ "__proto__" →
               to_object (settings w) !! k
               = match data !! k with
                 | Some v => Some v
                 | None => DEFAULT_SETTINGS_object !! k
                 end)
       ∧ to_object (settings w) !! "__proto__" = None.
Proof.
  intros H. destruct (as_settings_well_typed data H) as [s Hs].
  destruct (onload app (Some data)) as [w|] eqn:E.
  2: { unfold onload in E. rewrite Hs in E. discriminate. }
  exists w. split; [reflexivity|].
  pose proof (settings_onload app _ w E) as Hw.
  pose proof (to_object_read _ _ Hw) as Ho.
  split; [exact Ho|]. split.
  - intros k Hk. rewrite Ho. apply loadSettings_Some_lookup, Hk.
  - rewrite Ho. apply loadSettings_no_proto.
Qed.

(** A record of the first variant that also owns [__proto__]. *)
Lemma onload_partial_record_witness :
  let data : gmap string JSValue := <["__proto__" := JNumber 5]> legacy_data in
  ∃ w, onload no_view (Some data) = Some w
       ∧ to_object (settings w) = loadSettings (Some data)
       ∧ (∀ k, k ≠ "__proto__" →
               to_object (settings w) !! k
               = match data !! k with
                 | Some v => Some v
                 | None => DEFAULT_SETTINGS_object !! k
                 end)
       ∧ to_object (settings w) !! "__proto__" = None.
Proof.
  intros data. apply (onload_partial_record no_view data).
  unfold well_typed_record, number_keys, boolean_keys.
  repeat apply conj.
  - intros k v Hk.
    repeat (apply elem_of_cons in Hk as [-> | Hk];
            [vm_compute; intros [= <-]; eexists; reflexivity|]).
    apply elem_of_nil in Hk. contradiction.
  - intros k v Hk.
    repeat (apply elem_of_cons in Hk as [-> | Hk];
            [vm_compute; intros [= <-]; eexists; reflexivity|]).
    apply elem_of_nil in Hk. contradiction.
  - vm_compute. discriminate.
  - vm_compute. discriminate.
Defined.

(** X18.  A record of the first variant loads with its blur and feather;
    its radius is neither used nor dropped: width and height are the
    defaults whatever the radius was, and [spotlightRadius] stays on the
    settings object as an undeclared property. *)
Theorem load_radius_variant_record (s : RadiusVariant.PrivacyScreenSettings) :
  as_settings (loadSettings (Some (RadiusVariant.to_object s)))
  = Some {| spotlightWidth := 200;
            spotlightHeight := 100;
            horizontalOffset := 0;
            blurIntensity := RadiusVariant.blurIntensity s;
            featherEdge := RadiusVariant.featherEdge s;
            spotlightShape := circle;
            squareRoundness := 20;
            previewCursorBlink := true;
            wasActive := false;
            trackingMode := cursor;
            otherKeys :=
              {[ "spotlightRadius" := JNumber (RadiusVariant.spotlightRadius s) ]} |}.
Proof. destruct s. vm_compute. reflexivity. Qed.

(** X19.  A record of the second variant loads into the same spotlight:
    its six settings are taken over, the offset is 0, tracking follows
    the cursor, and at every target point the mask of the full variant
    has the numbers of the mask the second variant computed. *)
Theorem load_shape_variant_record (s : ShapeVariant.PrivacyScreenSettings) x y :
  let s' := {| spotlightWidth := ShapeVariant.spotlightWidth s;
               spotlightHeight := ShapeVariant.spotlightHeight s;
               horizontalOffset := 0;
               blurIntensity := ShapeVariant.blurIntensity s;
               featherEdge := ShapeVariant.featherEdge s;
               spotlightShape := ShapeVariant.spotlightShape s;
               squareRoundness := ShapeVariant.squareRoundness s;
               previewCursorBlink := true;
               wasActive := false;
               trackingMode := cursor;
               otherKeys := ∅ |} in
  as_settings (loadSettings (Some (ShapeVariant.to_object s))) = Some s'
  ∧ mask_equiv (maskImage_of s' x y) (ShapeVariant.maskImage_of s x y).
Proof.
  cbv zeta. split.
  - destruct s as [? ? ? ? [] ?]; vm_compute; reflexivity.
  - unfold maskImage_of, ShapeVariant.maskImage_of, createSquareMask, mask_equiv,
      ellipse_equiv, rect_equiv.
    cbn [spotlightShape spotlightWidth spotlightHeight horizontalOffset featherEdge
         squareRoundness].
    destruct (ShapeVariant.spotlightShape s);
      cbn [ellipse_rx ellipse_ry ellipse_x ellipse_y
           rect_x rect_y rect_width rect_height rect_rx];
      repeat apply conj; try reflexivity; ring.
Qed.

(** ** The preview *)


(** Without one of the preview elements [updatePreview] does nothing. *)
Lemma updatePreview_no_element s tab :
  previewShapeEl tab = None ∨ previewTextEl tab = None →
  updatePreview s tab = tab.
Proof.
  unfold updatePreview. intros [-> | ->]; [reflexivity|].
  destruct (previewShapeEl tab); reflexivity.
Qed.

(** ** Which handlers touch what *)

(** X21.  Adjusting, resetting and tracking never create or remove the
    overlay.  Apart from the toggle, the settings tab being shown or
    hidden and the three widgets that show it again, every handler leaves
    the element the plugin holds, the children of the body, [isActive]
    and the pause flag as they were. *)
Theorem overlay_untouched app e w :
  touches_overlay e = false →
  overlayEl (handle app e w) = overlayEl w
  ∧ body (handle app e w) = body w
  ∧ isActive (handle app e w) = isActive w
  ∧ wasActiveBeforePause (handle app e w) = wasActiveBeforePause w.
Proof.
  intros He.
  assert (lifecycle (handle app e w) = lifecycle w) as L.
  { destruct e; try discriminate He; cbn [handle];
      try (destruct c; try discriminate He; cbn [runCommand]);
      unfold PrivacyScreenSettingTab.horizontalOffset_onChange,
        PrivacyScreenSettingTab.spotlightHeight_onChange,
        PrivacyScreenSettingTab.blurIntensity_onChange,
        PrivacyScreenSettingTab.featherEdge_onChange,
        PrivacyScreenSettingTab.squareRoundness_onChange,
        PrivacyScreenSettingTab.trackingMode_onChange,
        adjustSetting, adjustOffset, resetSettings, toggleTrackingMode;
      first [ apply lifecycle_save_with_settings
            | apply lifecycle_trackCursor
            | apply lifecycle_on_mousemove
            | apply lifecycle_applySettings ]. }
  apply lifecycle_inj in L as (Lo & La & Lp & Lb). auto.
Qed.

Lemma overlay_untouched_witness :
  let w := run [(no_view, ribbon)] first_start in
  overlayEl (handle no_view (command reset_settings) w) = overlayEl w
  ∧ body (handle no_view (command reset_settings) w) = body w
  ∧ isActive (handle no_view (command reset_settings) w) = isActive w
  ∧ wasActiveBeforePause (handle no_view (command reset_settings) w)
    = wasActiveBeforePause w.
Proof.
  intros w. apply (overlay_untouched no_view (command reset_settings) w).
  reflexivity.
Defined.

(** X22.  Tracking saves nothing.  A key release, a click, a change of
    the active leaf or a pointer move changes neither the settings nor
    the saved record; the same holds for showing and hiding the settings
    tab. *)
Theorem tracking_saves_nothing app e w :
  is_tracking e = true ∨ e = tab_display ∨ e = tab_hide →
  settings (handle app e w) = settings w
  ∧ dataJson (handle app e w) = dataJson w.
Proof.
  intros He.
  assert (store (handle app e w) = store w) as Hs.
  { destruct He as [He | [-> | ->]].
    - destruct e; try discriminate He; cbn [handle];
        first [apply store_trackCursor | apply store_on_mousemove].
    - apply store_pauseOverlay.
    - apply store_resumeOverlay. }
  apply store_inj in Hs as [Hs Hd]. auto.
Qed.

Lemma tracking_saves_nothing_witness :
  let app := caret_at (Build_Rect 40 41 100 120) in
  let w := run [(app, ribbon)] first_start in
  settings (handle app keyup w) = settings w
  ∧ dataJson (handle app keyup w) = dataJson w.
Proof.
  intros app w. apply (tracking_saves_nothing app keyup w).
  left. reflexivity.
Defined.
